(** * open-chat-ui-n8n: the streaming chat hook and its structured-event sibling

    A shallow embedding of

    - [src/hooks/use-chat.ts]: the generic hook [useChat] (Variant A), whose
      progress callback overwrites the assistant placeholder with the
      cumulative response text;
    - [src/components/chat.tsx]: the component [Chat] (Variant B), whose
      progress callback reads newline-delimited JSON records and appends the
      content of the last one.

    React state is modelled by explicit state passing: a [setX] call writes the
    store at once (every [setMessages] of the source is a functional update,
    which React applies to the latest state in call order).  An [async]
    function is cut at its [await]: the part before it, the progress callback,
    and the continuation run when the promise settles are separate
    transitions, driven by the transport.  Calls that leave the hook (the
    configured callbacks, [console], [axios.post], [preventDefault]) are
    recorded in an effect log. *)

From Stdlib Require Import List String Ascii Bool Arith ZArith Lia.
Import ListNotations.
Local Open Scope list_scope.
Local Open Scope string_scope.

(** ** JavaScript strings

    A string is a sequence of code units; the code units here are the ones in
    U+0000..U+00FF ([ascii]). *)

Module JS.

(** WhiteSpace and LineTerminator code units of ECMAScript in the range:
    TAB, LF, VT, FF, CR, SP and NBSP. *)
Definition is_white_space (c : ascii) : bool :=
  match nat_of_ascii c with
  | 9 | 10 | 11 | 12 | 13 | 32 | 160 => true
  | _ => false
  end.

Fixpoint trimStart (s : string) : string :=
  match s with
  | EmptyString => EmptyString
  | String c r => if is_white_space c then trimStart r else s
  end.

Fixpoint trimEnd (s : string) : string :=
  match s with
  | EmptyString => EmptyString
  | String c r =>
      match trimEnd r with
      | EmptyString =>
          if is_white_space c then EmptyString else String c EmptyString
      | r' => String c r'
      end
  end.

(** [String.prototype.trim] *)
Definition trim (s : string) : string := trimEnd (trimStart s).

(** ToBoolean on a string: only the empty string is falsy. *)
Definition truthy (s : string) : bool :=
  match s with EmptyString => false | _ => true end.

(** [s.split(sep)] for a one-code-unit separator: always at least one
    piece. *)
Fixpoint split (sep : ascii) (s : string) : list string :=
  match s with
  | EmptyString => [EmptyString]
  | String c r =>
      if Ascii.eqb c sep then EmptyString :: split sep r
      else match split sep r with
           | p :: ps => String c p :: ps
           | [] => [String c EmptyString]
           end
  end.

Definition all_white_space (s : string) : bool :=
  forallb is_white_space (list_ascii_of_string s).

(** Objects with string keys, as the list of their properties in
    insertion order.  A list that names a key twice stands for the object
    literal that assigns it twice: the later value wins. *)

(** [r[k] = v]: an existing property keeps its place. *)
Fixpoint set_property {V : Type} (k : string) (v : V)
         (r : list (string * V)) : list (string * V) :=
  match r with
  | [] => [(k, v)]
  | (k', v') :: rest =>
      if String.eqb k' k then (k, v) :: rest
      else (k', v') :: set_property k v rest
  end.

(** [{ ...base, ...extra }], for a [base] whose keys are distinct. *)
Definition spread {V : Type} (base extra : list (string * V))
  : list (string * V) :=
  fold_left (fun r kv => set_property (fst kv) (snd kv) r) extra base.

(** [r[k]] on a list whose keys are distinct; [None] is [undefined]. *)
Fixpoint get_property {V : Type} (k : string) (r : list (string * V))
  : option V :=
  match r with
  | [] => None
  | (k', v) :: rest => if String.eqb k' k then Some v else get_property k rest
  end.

(** The value a list of assignments leaves in [k]: the last one. *)
Definition last_property {V : Type} (k : string) (r : list (string * V))
  : option V :=
  get_property k (rev r).

End JS.

(** ** JSON values, as [JSON.parse] returns them and request bodies carry them

    A number carries its JavaScript string form (what [String(n)] gives). *)

#[local] Set Warnings "-register-all".

Inductive JSON : Type :=
| JNull
| JBool (b : bool)
| JNumber (repr : string)
| JString (s : string)
| JArray (items : list JSON)
| JObject (fields : list (string * JSON)).

Definition JsRecord := list (string * JSON).

(** ** Errors that travel through [try]/[catch] *)

Inductive JsError : Type :=
| Error (message : string)
| TypeError (message : string)
| SyntaxError (message : string)
| AxiosError (message : string)
| CanceledError (message : string).

(** ** A state monad for the transitions *)

Module St.

Definition M (S A : Type) : Type := S -> A * S.

Definition ret {S A} (a : A) : M S A := fun w => (a, w).

Definition bind {S A B} (m : M S A) (k : A -> M S B) : M S B :=
  fun w => let (a, w') := m w in k a w'.

Definition modify {S} (f : S -> S) : M S unit := fun w => (tt, f w).

Definition gets {S A} (f : S -> A) : M S A := fun w => (f w, w).

Definition when {S} (b : bool) (m : M S unit) : M S unit :=
  if b then m else ret tt.

Definition exec {S A} (m : M S A) (w : S) : S := snd (m w).

Definition eval {S A} (m : M S A) (w : S) : A := fst (m w).

End St.

Declare Scope js_scope.
Delimit Scope js_scope with js.
Notation "x <- m ;; k" := (St.bind m (fun x => k))
  (at level 61, m at next level, right associativity) : js_scope.
Notation "m ;; k" := (St.bind m (fun _ => k))
  (at level 61, right associativity) : js_scope.

(** ** The transport's view of a progress tick *)

Record XMLHttpRequest : Type := mkXhr {
  responseText : string;
  response : string
}.

Record BrowserProgressEvent : Type := mkBrowserEvent {
  target : option XMLHttpRequest
}.

Record AxiosProgressEvent : Type := mkProgress {
  event : option BrowserProgressEvent
}.

(** [progressEvent.event?.target] *)
Definition event_target (progressEvent : AxiosProgressEvent)
  : option XMLHttpRequest :=
  match event progressEvent with
  | Some e => target e
  | None => None
  end.

(** A tick whose transport object shows [text] as the body so far. *)
Definition tick (text : string) : AxiosProgressEvent :=
  mkProgress (Some (mkBrowserEvent (Some (mkXhr text text)))).

(** How [await axios.post(...)] ends. *)
Inductive Settlement : Type :=
| Fulfilled
| Rejected (err : JsError).

(** [axios.isCancel] *)
Definition axios_isCancel (err : JsError) : bool :=
  match err with
  | CanceledError _ => true
  | _ => false
  end.

Definition Date := Z.
Definition AbortController := nat.

(** ** Variant A: the generic hook, [src/hooks/use-chat.ts] *)

Module UseChat.

Import St.
Local Open Scope js_scope.
Local Open Scope list_scope.

Inductive PartType : Type := Text | Image | File.

Record ChatMessagePart : Type := mkPart {
  type : PartType;
  text : option string;
  image_url : option string;
  file_url : option string
}.

Inductive Role : Type := user | assistant | system.

Record ChatMessage : Type := mkMessage {
  id : string;
  role : Role;
  parts : list ChatMessagePart;
  createdAt : option Date
}.

(** [{ type: "text", text: s }] *)
Definition text_part (s : string) : ChatMessagePart :=
  mkPart Text (Some s) None None.

(** [body]: a static record or a function of the outgoing user message. *)
Inductive BodyOption : Type :=
| BodyRecord (r : JsRecord)
| BodyFunction (f : ChatMessage -> JsRecord).

(** The hook's options.  A callback is an opaque observer: the option says
    whether one is configured, and each of its calls is logged with its
    argument. *)
Record UseChatOptions : Type := mkOptions {
  api : string;
  initialMessages : list ChatMessage;
  onResponse : bool;
  onFinish : bool;
  onError : bool;
  headers : list (string * string);
  body : option BodyOption
}.

(** [useChat()] with every option left out. *)
Definition default_options : UseChatOptions :=
  mkOptions "/api/chat" [] false false false [] None.

(** What [axios.post] is given as payload: the record the body function
    returned, or the literal
    [{ messages: history, chatInput: chatInput, ...extra }], whose
    properties [body_fields] (below) lists. *)
Inductive RequestBody : Type :=
| ProducedBody (r : JsRecord)
| DefaultBody (history : list ChatMessage) (chatInput : option string)
              (extra : JsRecord).

Inductive Effect : Type :=
| PreventDefault
| AxiosPost (url : string) (payload : RequestBody)
            (hdrs : list (string * string)) (signal : AbortController)
| OnResponse (chunk : string)
| OnFinish (message : ChatMessage)
| OnError (err : JsError)
| ConsoleLog (line : string)
| ConsoleError (line : string) (err : JsError).

(** The hook instance and its surroundings: the four [useState] cells, the
    [useRef] cell, the abort controllers made so far and the aborted ones,
    the source [nanoid()] draws from, the clock [new Date()] reads, and the
    effect log (oldest first). *)
Record World : Type := mkWorld {
  messages : list ChatMessage;
  input : string;
  isLoading : bool;
  error : option JsError;
  abortControllerRef : option AbortController;
  controllers : nat;
  aborted : list AbortController;
  nanoid_source : nat -> string;
  nanoid_calls : nat;
  clock : Date;
  effects : list Effect
}.

(** The initial render of [useChat(opts)]. *)
Definition mount (opts : UseChatOptions) (ids : nat -> string) (now : Date)
  : World :=
  mkWorld (initialMessages opts) EmptyString false None None 0 [] ids 0 now [].

Definition setMessages (f : list ChatMessage -> list ChatMessage)
  : M World unit :=
  modify (fun w : World =>
    let (m, i, l, e, r, c, ab, src, n, t, fx) := w in
    mkWorld (f m) i l e r c ab src n t fx).

Definition setInput (v : string) : M World unit :=
  modify (fun w : World =>
    let (m, _, l, e, r, c, ab, src, n, t, fx) := w in
    mkWorld m v l e r c ab src n t fx).

Definition setIsLoading (v : bool) : M World unit :=
  modify (fun w : World =>
    let (m, i, _, e, r, c, ab, src, n, t, fx) := w in
    mkWorld m i v e r c ab src n t fx).

Definition setError (v : option JsError) : M World unit :=
  modify (fun w : World =>
    let (m, i, l, _, r, c, ab, src, n, t, fx) := w in
    mkWorld m i l v r c ab src n t fx).

(** [abortControllerRef.current = v] *)
Definition set_abortControllerRef (v : option AbortController)
  : M World unit :=
  modify (fun w : World =>
    let (m, i, l, e, _, c, ab, src, n, t, fx) := w in
    mkWorld m i l e v c ab src n t fx).

(** [new AbortController()] *)
Definition new_AbortController : M World AbortController :=
  fun w : World =>
    let (m, i, l, e, r, c, ab, src, n, t, fx) := w in
    (c, mkWorld m i l e r (S c) ab src n t fx).

(** [controller.abort()] *)
Definition abort (c : AbortController) : M World unit :=
  modify (fun w : World =>
    let (m, i, l, e, r, k, ab, src, n, t, fx) := w in
    mkWorld m i l e r k (c :: ab) src n t fx).

(** [nanoid()] *)
Definition nanoid : M World string :=
  fun w : World =>
    let (m, i, l, e, r, c, ab, src, n, t, fx) := w in
    (src n, mkWorld m i l e r c ab src (S n) t fx).

(** [new Date()] *)
Definition new_Date : M World Date := gets clock.

Definition emit (x : Effect) : M World unit :=
  modify (fun w : World =>
    let (m, i, l, e, r, c, ab, src, n, t, fx) := w in
    mkWorld m i l e r c ab src n t (fx ++ [x])).

(** The part of the world the hook returns to its caller as state. *)
Record Conversation : Type := mkConversation {
  c_messages : list ChatMessage;
  c_input : string;
  c_isLoading : bool;
  c_error : option JsError
}.

Definition conversation (w : World) : Conversation :=
  mkConversation (messages w) (input w) (isLoading w) (error w).

(** *** [handleInputChange] *)



(** *** [stop] *)

Definition stop : M World unit :=
  cur <- gets abortControllerRef ;;
  match cur with
  | Some c =>
      abort c ;;
      set_abortControllerRef None ;;
      setIsLoading false
  | None => ret tt
  end.

(** *** [append]

    [append] is [async]: [append_start] is what runs up to
    [await axios.post(...)], [onDownloadProgress] is the callback handed to
    the transport in [config], and [append_resume] is what runs once the
    promise has settled. *)

Inductive AppendArg : Type :=
| Message (m : ChatMessage)
| Content (s : string).

(** What the suspended call keeps in its closure. *)
Record Request : Type := mkRequest {
  assistantMessageId : string;
  assistantMessage : ChatMessage;
  abortController : AbortController
}.

Inductive Pending : Type :=
| Settled
| Awaiting (req : Request).

(** The [headers] entry of [config]:
    [{ "Content-Type": "application/json", ...headers }]. *)
Definition config_headers (opts : UseChatOptions) : list (string * string) :=
  JS.spread [("Content-Type", "application/json")] (headers opts).

(** [requestBody]; [userMessage.parts[0].text] throws when the caller's
    message has no part. *)
Definition requestBody (opts : UseChatOptions) (history : list ChatMessage)
           (userMessage : ChatMessage) : JsError + RequestBody :=
  match body opts with
  | Some (BodyFunction f) => inr (ProducedBody (f userMessage))
  | other =>
      match parts userMessage with
      | [] =>
          inl (TypeError
                 "Cannot read properties of undefined (reading 'text')")
      | p :: _ =>
          inr (DefaultBody (history ++ [userMessage]) (text p)
                 match other with
                 | Some (BodyRecord r) => r
                 | _ => []
                 end)
      end
  end.

(** The [catch] clause. *)
Definition append_catch (opts : UseChatOptions) (err : JsError)
  : M World unit :=
  if axios_isCancel err then emit (ConsoleLog "Request canceled")
  else
    emit (ConsoleError "Error in useChat:" err) ;;
    setError (Some err) ;;
    when (onError opts) (emit (OnError err)).

(** The [finally] clause. *)
Definition append_finally : M World unit :=
  setIsLoading false ;;
  set_abortControllerRef None.

(** [append] as built by a render that saw the list [history]: the
    closure reads [messages] (for the payload) from that render, and the
    store only through the setters. *)
Definition append_of_render (opts : UseChatOptions)
           (history : list ChatMessage) (message : AppendArg)
  : M World Pending :=
  userMessage <-
    match message with
    | Content s =>
        i <- nanoid ;;
        d <- new_Date ;;
        ret (mkMessage i user [text_part s] (Some d))
    | Message m => ret m
    end ;;
  setIsLoading true ;;
  setError None ;;
  assistantMessageId <- nanoid ;;
  d <- new_Date ;;
  let assistantMessage :=
    mkMessage assistantMessageId assistant [text_part EmptyString] (Some d) in
  setMessages (fun prev => prev ++ [userMessage; assistantMessage]) ;;
  match message with
  | Content _ => setInput EmptyString
  | Message _ => ret tt
  end ;;
  abortController <- new_AbortController ;;
  set_abortControllerRef (Some abortController) ;;
  match requestBody opts history userMessage with
  | inr payload =>
      emit (AxiosPost (api opts) payload (config_headers opts)
                      abortController) ;;
      ret (Awaiting (mkRequest assistantMessageId assistantMessage
                               abortController))
  | inl err =>
      append_catch opts err ;;
      append_finally ;;
      ret Settled
  end.

(** [append] of the latest render: the one whose closure holds the list
    now in the store. *)
Definition append_start (opts : UseChatOptions) (message : AppendArg)
  : M World Pending :=
  history <- gets messages ;;
  append_of_render opts history message.

(** [{ ...msg, parts: [{ type: "text", text: response }] }] *)
Definition with_text (msg : ChatMessage) (response : string) : ChatMessage :=
  mkMessage (id msg) (role msg) [text_part response] (createdAt msg).

(** The updater of one message inside [prev.map(...)]. *)
Definition replace_parts (assistantMessageId response : string)
           (msg : ChatMessage) : ChatMessage :=
  if String.eqb (id msg) assistantMessageId
  then with_text msg response
  else msg.

(** [xhr.responseText || xhr.response] *)
Definition raw_payload (xhr : XMLHttpRequest) : string :=
  if JS.truthy (responseText xhr) then responseText xhr else response xhr.

Definition onDownloadProgress (opts : UseChatOptions) (req : Request)
           (progressEvent : AxiosProgressEvent) : M World unit :=
  match event_target progressEvent with
  | Some xhr =>
      let response := raw_payload xhr in
      when (onResponse opts) (emit (OnResponse response)) ;;
      setMessages (map (replace_parts (assistantMessageId req) response))
  | None => ret tt
  end.

Definition append_resume (opts : UseChatOptions) (req : Request)
           (outcome : Settlement) : M World unit :=
  match outcome with
  | Fulfilled => when (onFinish opts) (emit (OnFinish (assistantMessage req)))
  | Rejected err => append_catch opts err
  end ;;
  append_finally.

(** *** [handleSubmit], cut at [await append(content)] *)

Inductive SubmitArg : Type :=
| FormEvent
| SubmitString (s : string).

Inductive Submitted : Type :=
| Returned
| Appending (req : Request)
| Completed.

(** [typeof e === "string" ? e : input] *)
Definition submit_content (e : option SubmitArg) (draft : string) : string :=
  match e with
  | Some (SubmitString s) => s
  | _ => draft
  end.

(** [handleSubmit] as built by a render that saw the draft [draft] and the
    list [history]: its closure holds that [input] and that render's
    [append]. *)
Definition handleSubmit_of_render (opts : UseChatOptions) (draft : string)
           (history : list ChatMessage) (e : option SubmitArg)
  : M World Submitted :=
  match e with
  | Some FormEvent => emit PreventDefault
  | _ => ret tt
  end ;;
  let content := submit_content e draft in
  if negb (JS.truthy (JS.trim content)) then ret Returned
  else
    p <- append_of_render opts history (Content content) ;;
    match p with
    | Awaiting req => ret (Appending req)
    | Settled => setInput EmptyString ;; ret Completed
    end.

(** [handleSubmit] of the latest render. *)
Definition handleSubmit_start (opts : UseChatOptions) (e : option SubmitArg)
  : M World Submitted :=
  draft <- gets input ;;
  history <- gets messages ;;
  handleSubmit_of_render opts draft history e.

Definition handleSubmit_resume (opts : UseChatOptions) (req : Request)
           (outcome : Settlement) : M World unit :=
  append_resume opts req outcome ;;
  setInput EmptyString.

(** *** [clearMessages] *)

Definition clearMessages : M World unit :=
  setMessages (fun _ => []) ;;
  setInput EmptyString ;;
  setError None ;;
  stop.

(** *** Whole sends, as the surroundings drive them

    While [append] is suspended the transport delivers progress ticks and
    the user may call [stop]. *)

Inductive Step : Type :=
| Progress (progressEvent : AxiosProgressEvent)
| Stop.

Definition step (opts : UseChatOptions) (req : Request) (s : Step)
  : M World unit :=
  match s with
  | Progress progressEvent => onDownloadProgress opts req progressEvent
  | Stop => stop
  end.

Fixpoint drive (opts : UseChatOptions) (req : Request) (steps : list Step)
  : M World unit :=
  match steps with
  | [] => ret tt
  | s :: rest => step opts req s ;; drive opts req rest
  end.

(** One call of [append], what happens while it is suspended, and how the
    request ends. *)
Definition send (opts : UseChatOptions) (message : AppendArg)
           (steps : list Step) (outcome : Settlement) : M World Pending :=
  p <- append_start opts message ;;
  match p with
  | Awaiting req =>
      drive opts req steps ;;
      append_resume opts req outcome ;;
      ret p
  | Settled => ret p
  end.

(** The raw payloads the updater is handed over a run, oldest first: a tick
    without a transport object hands over none. *)
Fixpoint payloads (steps : list Step) : list string :=
  match steps with
  | [] => []
  | Progress progressEvent :: rest =>
      match event_target progressEvent with
      | Some xhr => raw_payload xhr :: payloads rest
      | None => payloads rest
      end
  | Stop :: rest => payloads rest
  end.

Definition last_payload (steps : list Step) : option string :=
  last (map Some (payloads steps)) None.

(** The text of a message's parts, for reading results. *)
Definition part_texts (m : ChatMessage) : list (option string) :=
  map text (parts m).

(** The ids [append] would be handed by [nanoid()] from now on are pairwise
    distinct and differ from the ids of the stored messages and from
    [others]: what [nanoid] promises. *)
Definition nanoid_unique (w : World) (others : list string) : Prop :=
  (forall i j, nanoid_calls w <= i -> nanoid_calls w <= j ->
               nanoid_source w i = nanoid_source w j -> i = j)
  /\ (forall i, nanoid_calls w <= i ->
                ~ In (nanoid_source w i) (map id (messages w) ++ others)).

(** The id a caller-built message brings along. *)
Definition brought_ids (message : AppendArg) : list string :=
  match message with
  | Message m => [id m]
  | Content _ => []
  end.

(** The two messages a call of [append] builds in world [w], written out:
    the user message (the caller's, or one with the next id drawn), and
    the placeholder (with the id drawn after that). *)
Definition user_message_of (message : AppendArg) (w : World) : ChatMessage :=
  match message with
  | Message m => m
  | Content s =>
      mkMessage (nanoid_source w (nanoid_calls w)) user [text_part s]
                (Some (clock w))
  end.

Definition placeholder_id (message : AppendArg) (w : World) : string :=
  nanoid_source w match message with
                  | Message _ => nanoid_calls w
                  | Content _ => S (nanoid_calls w)
                  end.

Definition placeholder (message : AppendArg) (w : World) : ChatMessage :=
  mkMessage (placeholder_id message w) assistant [text_part EmptyString]
            (Some (clock w)).

(** The latest payload, or the empty text the placeholder starts with. *)
Definition streamed_text (steps : list Step) : string :=
  match last_payload steps with
  | Some p => p
  | None => EmptyString
  end.

(** The text the placeholder shows when a send is over: a send that never
    reached the transport streamed nothing. *)
Definition final_text (p : Pending) (steps : list Step) : string :=
  match p with
  | Awaiting _ => streamed_text steps
  | Settled => EmptyString
  end.

(** The calls of [onResponse] a run makes. *)
Definition responses (opts : UseChatOptions) (steps : list Step)
  : list Effect :=
  if onResponse opts then map OnResponse (payloads steps) else [].

(** A source of ids for running examples: the letter [i], [n + 1] times. *)
Fixpoint unary (n : nat) : string :=
  match n with
  | O => "i"
  | S k => String "i"%char (unary k)
  end.

(** The calls [append] makes once the request has settled. *)
Definition settle_calls (opts : UseChatOptions) (req : Request)
           (outcome : Settlement) : list Effect :=
  match outcome with
  | Fulfilled =>
      if onFinish opts then [OnFinish (assistantMessage req)] else []
  | Rejected err =>
      if axios_isCancel err then [ConsoleLog "Request canceled"]
      else ConsoleError "Error in useChat:" err
           :: (if onError opts then [OnError err] else [])
  end.

(** The [error] cell once a request that started with [error] unset has
    settled. *)
Definition settle_error (outcome : Settlement) : option JsError :=
  match outcome with
  | Fulfilled => None
  | Rejected err => if axios_isCancel err then None else Some err
  end.

(** The payload [append] posts for [userMessage] when the list holds
    [history]: what the body function makes of the message, or the default
    record. *)
Definition posted_body (opts : UseChatOptions) (history : list ChatMessage)
           (userMessage : ChatMessage) : RequestBody :=
  match body opts with
  | Some (BodyFunction f) => ProducedBody (f userMessage)
  | Some (BodyRecord r) =>
      DefaultBody (history ++ [userMessage])
                  match parts userMessage with
                  | p :: _ => text p
                  | [] => None
                  end r
  | None =>
      DefaultBody (history ++ [userMessage])
                  match parts userMessage with
                  | p :: _ => text p
                  | [] => None
                  end []
  end.

(** The values a payload's properties hold. *)
Inductive BodyValue : Type :=
| MessagesValue (history : list ChatMessage)
| InputValue (chatInput : option string)
| JsonValue (v : JSON).

(** The properties of the posted object: the fields of the static body are
    spread over the two default ones and replace them where they carry
    the same name. *)
Definition body_fields (payload : RequestBody) : list (string * BodyValue) :=
  match payload with
  | ProducedBody r =>
      JS.spread [] (map (fun kv => (fst kv, JsonValue (snd kv))) r)
  | DefaultBody history chatInput extra =>
      JS.spread [("messages", MessagesValue history);
                 ("chatInput", InputValue chatInput)]
                (map (fun kv => (fst kv, JsonValue (snd kv))) extra)
  end.


End UseChat.

(** ** A reference [JSON.parse] / [JSON.stringify]

    The handlers of Variant B take the two platform functions as parameters.
    This module gives an instance to run them with.  It reads and prints the
    JSON grammar on a fragment where the JavaScript result is representable
    here: integer numbers of at most 15 digits (no fraction, no exponent),
    [\u] escapes below U+0100, and objects whose keys are distinct and are
    not array indices (so that property order is source order).  Outside the
    fragment [parse] answers [None]. *)

Module Json.

Local Open Scope string_scope.

Definition dquote : ascii := "034"%char.

(** [s] between double quotes, verbatim. *)
Definition quoted (s : string) : string :=
  String dquote (s ++ String dquote EmptyString).

Definition is_digit (c : ascii) : bool :=
  Nat.leb 48 (nat_of_ascii c) && Nat.leb (nat_of_ascii c) 57.

Fixpoint skip_ws (s : string) : string :=
  match s with
  | String c r =>
      match c with
      | " "%char | "009"%char | "010"%char | "013"%char => skip_ws r
      | _ => s
      end
  | EmptyString => s
  end.

Definition hex_digit (c : ascii) : option nat :=
  let n := nat_of_ascii c in
  if Nat.leb 48 n && Nat.leb n 57 then Some (n - 48)
  else if Nat.leb 97 n && Nat.leb n 102 then Some (n - 87)
  else if Nat.leb 65 n && Nat.leb n 70 then Some (n - 55)
  else None.

Definition hex4 (a b c d : ascii) : option nat :=
  match hex_digit a, hex_digit b, hex_digit c, hex_digit d with
  | Some x, Some y, Some z, Some t => Some (((x * 16 + y) * 16 + z) * 16 + t)
  | _, _, _, _ => None
  end.

Definition simple_escape (e : ascii) : option ascii :=
  match e with
  | "034"%char => Some "034"%char
  | "\"%char => Some "\"%char
  | "/"%char => Some "/"%char
  | "b"%char => Some "008"%char
  | "f"%char => Some "012"%char
  | "n"%char => Some "010"%char
  | "r"%char => Some "013"%char
  | "t"%char => Some "009"%char
  | _ => None
  end.

Definition push (c : ascii) (r : option (string * string))
  : option (string * string) :=
  match r with
  | Some (s, rest) => Some (String c s, rest)
  | None => None
  end.

(** The characters of a string literal after its opening quote. *)
Fixpoint string_body (s : string) : option (string * string) :=
  match s with
  | EmptyString => None
  | String c r =>
      if Ascii.eqb c dquote then Some (EmptyString, r)
      else if Ascii.eqb c "\"%char then
        match r with
        | String e r1 =>
            match simple_escape e with
            | Some d => push d (string_body r1)
            | None =>
                match e, r1 with
                | "u"%char, String h1 (String h2 (String h3 (String h4 r2))) =>
                    match hex4 h1 h2 h3 h4 with
                    | Some code =>
                        if Nat.ltb code 256
                        then push (ascii_of_nat code) (string_body r2)
                        else None
                    | None => None
                    end
                | _, _ => None
                end
            end
        | EmptyString => None
        end
      else if Nat.ltb (nat_of_ascii c) 32 then None
      else push c (string_body r)
  end.

Fixpoint take_digits (s : string) : string * string :=
  match s with
  | String c r =>
      if is_digit c
      then let (d, rest) := take_digits r in (String c d, rest)
      else (EmptyString, s)
  | EmptyString => (EmptyString, EmptyString)
  end.

Definition starts_fraction_or_exponent (s : string) : bool :=
  match s with
  | String c _ =>
      match c with
      | "."%char | "e"%char | "E"%char => true
      | _ => false
      end
  | EmptyString => false
  end.

(** An integer literal; the result is the number's string form. *)
Definition number (s : string) : option (JSON * string) :=
  let (negative, s1) :=
    match s with
    | String "-"%char r => (true, r)
    | _ => (false, s)
    end in
  let (digits, rest) := take_digits s1 in
  match digits with
  | EmptyString => None
  | String d ds =>
      if (Ascii.eqb d "0"%char && negb (String.eqb ds EmptyString))
         || Nat.ltb 15 (String.length digits)
         || starts_fraction_or_exponent rest
      then None
      else if String.eqb digits "0" then Some (JNumber "0", rest)
      else Some (JNumber (if negative then String "-"%char digits else digits),
                 rest)
  end.

Fixpoint value (fuel : nat) (s : string) : option (JSON * string) :=
  match fuel with
  | O => None
  | S n =>
      match skip_ws s with
      | String "n"%char (String "u"%char (String "l"%char (String "l"%char r))) =>
          Some (JNull, r)
      | String "t"%char (String "r"%char (String "u"%char (String "e"%char r))) =>
          Some (JBool true, r)
      | String "f"%char
          (String "a"%char (String "l"%char (String "s"%char (String "e"%char r)))) =>
          Some (JBool false, r)
      | String "034"%char r =>
          match string_body r with
          | Some (str, rest) => Some (JString str, rest)
          | None => None
          end
      | String "["%char r =>
          match skip_ws r with
          | String "]"%char rest => Some (JArray [], rest)
          | _ =>
              match elements n r with
              | Some (items, rest) => Some (JArray items, rest)
              | None => None
              end
          end
      | String "{"%char r =>
          match skip_ws r with
          | String "}"%char rest => Some (JObject [], rest)
          | _ =>
              match members n r with
              | Some (fields, rest) => Some (JObject fields, rest)
              | None => None
              end
          end
      | other => number other
      end
  end
with elements (fuel : nat) (s : string) : option (list JSON * string) :=
  match fuel with
  | O => None
  | S n =>
      match value n s with
      | Some (v, rest) =>
          match skip_ws rest with
          | String ","%char r =>
              match elements n r with
              | Some (vs, rest') => Some (v :: vs, rest')
              | None => None
              end
          | String "]"%char r => Some ([v], r)
          | _ => None
          end
      | None => None
      end
  end
with members (fuel : nat) (s : string)
  : option (list (string * JSON) * string) :=
  match fuel with
  | O => None
  | S n =>
      match skip_ws s with
      | String "034"%char r =>
          match string_body r with
          | Some (key, rest) =>
              match skip_ws rest with
              | String ":"%char r1 =>
                  match value n r1 with
                  | Some (v, rest1) =>
                      match skip_ws rest1 with
                      | String ","%char r2 =>
                          match members n r2 with
                          | Some (fs, rest2) => Some ((key, v) :: fs, rest2)
                          | None => None
                          end
                      | String "}"%char r2 => Some ([(key, v)], r2)
                      | _ => None
                      end
                  | None => None
                  end
              | _ => None
              end
          | None => None
          end
      | _ => None
      end
  end.

(** A canonical array index: ["0"], or digits without a leading zero. *)
Definition is_index (k : string) : bool :=
  match k with
  | EmptyString => false
  | String d ds =>
      forallb is_digit (list_ascii_of_string k)
      && (negb (Ascii.eqb d "0"%char) || String.eqb ds EmptyString)
  end.

Fixpoint distinct (ks : list string) : bool :=
  match ks with
  | [] => true
  | k :: rest => negb (existsb (String.eqb k) rest) && distinct rest
  end.

Fixpoint plain_keys (v : JSON) : bool :=
  match v with
  | JArray items => forallb plain_keys items
  | JObject fields =>
      distinct (map fst fields)
      && forallb (fun kv => match kv with
                            | (k, x) => negb (is_index k) && plain_keys x
                            end) fields
  | _ => true
  end.

Definition parse (s : string) : option JSON :=
  match value (S (String.length s)) s with
  | Some (v, rest) =>
      match skip_ws rest with
      | EmptyString => if plain_keys v then Some v else None
      | _ => None
      end
  | None => None
  end.

Definition hex_char (n : nat) : ascii :=
  if Nat.ltb n 10 then ascii_of_nat (48 + n) else ascii_of_nat (87 + n).

Definition escape (c : ascii) : string :=
  match c with
  | "034"%char => String "\"%char (String "034"%char EmptyString)
  | "\"%char => "\\"
  | "008"%char => "\b"
  | "012"%char => "\f"
  | "010"%char => "\n"
  | "013"%char => "\r"
  | "009"%char => "\t"
  | _ =>
      let n := nat_of_ascii c in
      if Nat.ltb n 32
      then "\u00" ++ String (hex_char (n / 16)) (String (hex_char (n mod 16)) EmptyString)
      else String c EmptyString
  end.

Definition quote (s : string) : string :=
  String dquote
    (String.concat EmptyString (map escape (list_ascii_of_string s))
     ++ String dquote EmptyString).

Fixpoint stringify (v : JSON) : string :=
  match v with
  | JNull => "null"
  | JBool true => "true"
  | JBool false => "false"
  | JNumber repr => repr
  | JString s => quote s
  | JArray items => "[" ++ String.concat "," (map stringify items) ++ "]"
  | JObject fields =>
      "{" ++ String.concat ","
               (map (fun kv => match kv with
                               | (k, x) => quote k ++ ":" ++ stringify x
                               end) fields)
          ++ "}"
  end.

End Json.

(** ** Variant B: the structured-event component, [src/components/chat.tsx] *)

Module Chat.

Import St.
Local Open Scope js_scope.
Local Open Scope list_scope.

Inductive Role : Type := user | assistant.

(** [{ type: "text"; text: string }] *)
Record Part : Type := mkPart {
  text : string
}.

Record ChatMessage : Type := mkMessage {
  id : string;
  role : Role;
  parts : list Part
}.

Module PromptInputMessage.
Record t : Type := make { text : string }.
End PromptInputMessage.

Definition webhook : string :=
  "https://n8n.biuma.com.br/webhook/open-chat-n8n".

Inductive Effect : Type :=
| AxiosPost (url : string) (payload : JsRecord)
| ConsoleLogParsed (parsed : list JSON)
| ConsoleLogResponse (raw : string)
| ConsoleError (line : string) (err : JsError).

(** Every [useState] cell of the component: there is one. *)
Record State : Type := mkState {
  messages : list ChatMessage
}.

Record World : Type := mkWorld {
  state : State;
  nanoid_source : nat -> string;
  nanoid_calls : nat;
  effects : list Effect
}.

Definition mount (ids : nat -> string) : World :=
  mkWorld (mkState []) ids 0 [].

Definition setMessages (f : list ChatMessage -> list ChatMessage)
  : M World unit :=
  modify (fun w : World =>
    let (st, src, n, fx) := w in
    mkWorld (mkState (f (messages st))) src n fx).

Definition nanoid : M World string :=
  fun w : World =>
    let (st, src, n, fx) := w in
    (src n, mkWorld st src (S n) fx).

Definition emit (x : Effect) : M World unit :=
  modify (fun w : World =>
    let (st, src, n, fx) := w in
    mkWorld st src n (fx ++ [x])).

(** How a callback ends. *)
Inductive Completion : Type :=
| Normal
| Throw (err : JsError).

(** [handleSubmit] up to [await axios.post(...)]; the result is the
    [assistantMessageId] the progress callback closes over. *)
Definition handleSubmit_start (message : PromptInputMessage.t)
  : M World string :=
  i <- nanoid ;;
  let userMessage :=
    mkMessage i user [mkPart (PromptInputMessage.text message)] in
  assistantMessageId <- nanoid ;;
  let assistantMessage :=
    mkMessage assistantMessageId assistant [mkPart EmptyString] in
  setMessages (fun prev => prev ++ [userMessage; assistantMessage]) ;;
  sessionId <- nanoid ;;
  emit (AxiosPost webhook
          [("chatInput", JString (PromptInputMessage.text message));
           ("sessionId", JString sessionId)]) ;;
  ret assistantMessageId.

(** [handleSubmit] after the promise has settled: the [catch] clause. *)
Definition handleSubmit_resume (outcome : Settlement) : M World unit :=
  match outcome with
  | Fulfilled => ret tt
  | Rejected err => emit (ConsoleError "Error fetching chat response:" err)
  end.

(** [parsed.at(-1)] *)
Definition at_last {A : Type} (l : list A) : option A :=
  last (map Some l) None.

(** [v?.key] on a parsed value or [undefined] ([None]); a duplicated key of
    the source text holds its last value.  The keys read are [type] and
    [content], which no primitive, array or prototype provides. *)
Definition property (v : option JSON) (key : string) : option JSON :=
  match v with
  | Some (JObject fields) =>
      match find (fun kv => String.eqb (fst kv) key) (rev fields) with
      | Some kv => Some (snd kv)
      | None => None
      end
  | _ => None
  end.

(** [v === s] for a string literal [s] *)
Definition strict_equal (v : option JSON) (s : string) : bool :=
  match v with
  | Some (JString x) => String.eqb x s
  | _ => false
  end.

(** ToString, as [+] applies it to its right operand.  Objects are read
    through [Object.prototype.toString]: an object whose own key shadows
    [toString] (for which [+] throws) is outside this definition. *)
Fixpoint ToString (v : JSON) : string :=
  match v with
  | JNull => "null"
  | JBool true => "true"
  | JBool false => "false"
  | JNumber repr => repr
  | JString s => s
  | JArray items =>
      String.concat ","
        (map (fun x => match x with JNull => EmptyString | _ => ToString x end) items)
  | JObject _ => "[object Object]"
  end.

(** [s + v] *)
Definition plus (s : string) (v : option JSON) : string :=
  (s ++ match v with
        | Some x => ToString x
        | None => "undefined"
        end)%string.

(** [a || ''] on strings *)
Definition or_empty (a : string) : string :=
  if JS.truthy a then a else EmptyString.

(** The updater of one message inside [prev.map(...)]; [msg.parts[0].text]
    throws on a message without parts. *)
Definition append_content (assistantMessageId : string)
           (lastResponse : option JSON) (msg : ChatMessage)
  : JsError + ChatMessage :=
  if String.eqb (id msg) assistantMessageId then
    match parts msg with
    | p :: _ =>
        inr (mkMessage (id msg) (role msg)
               [mkPart (or_empty
                          (plus (text p) (property lastResponse "content")))])
    | [] =>
        inl (TypeError
               "Cannot read properties of undefined (reading 'text')")
    end
  else inr msg.

(** [l.map(f)] for an [f] that may throw: the first throw ends it. *)
Fixpoint map_throwing {A B : Type} (f : A -> JsError + B) (l : list A)
  : JsError + list B :=
  match l with
  | [] => inr []
  | a :: rest =>
      match f a with
      | inl err => inl err
      | inr b =>
          match map_throwing f rest with
          | inl err => inl err
          | inr bs => inr (b :: bs)
          end
      end
  end.

(** [response.split("\n").filter(Boolean)]: the non-empty lines. *)
Definition lines (raw : string) : list string :=
  filter JS.truthy (JS.split "010"%char raw).

Section Platform.

Variable JSON_parse : string -> JsError + JSON.
Variable JSON_stringify : JSON -> string.

(** [response.split("\n").filter(Boolean).map(JSON.parse)] *)
Definition parse_buffer (raw : string) : JsError + list JSON :=
  map_throwing JSON_parse (lines raw).

(** The last record of a buffer, when every line of it parses. *)
Definition last_record (raw : string) : option JSON :=
  match parse_buffer raw with
  | inr parsed => at_last parsed
  | inl _ => None
  end.

(** [setMessages((prev) => prev.map(...))] of the [item] branch. *)
Definition append_to_placeholder (assistantMessageId : string)
           (lastResponse : option JSON) : M World Completion :=
  fun w =>
    match map_throwing (append_content assistantMessageId lastResponse)
                       (messages (state w)) with
    | inr next => setMessages (fun _ => next) ;; ret Normal
    | inl err => ret (Throw err)
    end w.

(** [new Error(JSON.stringify(lastResponse))] *)
Definition serialized_error (lastResponse : option JSON) : JsError :=
  Error match lastResponse with
        | Some record => JSON_stringify record
        | None => EmptyString
        end.

Definition onDownloadProgress (assistantMessageId : string)
           (progressEvent : AxiosProgressEvent) : M World Completion :=
  match event_target progressEvent with
  | None => ret Normal
  | Some xhr =>
      let raw := response xhr in
      match parse_buffer raw with
      | inl err => ret (Throw err)
      | inr parsed =>
          let lastResponse := at_last parsed in
          emit (ConsoleLogParsed parsed) ;;
          emit (ConsoleLogResponse raw) ;;
          c <- (if strict_equal (property lastResponse "type") "item"
                then append_to_placeholder assistantMessageId lastResponse
                else ret Normal) ;;
          match c with
          | Throw err => ret (Throw err)
          | Normal =>
              if strict_equal (property lastResponse "type") "error"
              then ret (Throw (serialized_error lastResponse))
              else ret Normal
          end
      end
  end.

End Platform.

(** The platform functions read through the reference implementation. *)
Definition reference_parse (line : string) : JsError + JSON :=
  match Json.parse line with
  | Some v => inr v
  | None => inl (SyntaxError "JSON.parse")
  end.

(** The text of a message's parts, for reading results. *)
Definition part_texts (m : ChatMessage) : list string :=
  map text (parts m).

(** [msg.parts[0].text], where there is a first part. *)
Definition first_text (msg : ChatMessage) : string :=
  match parts msg with
  | p :: _ => text p
  | [] => EmptyString
  end.

(** Every stored message has exactly one part: [handleSubmit] builds them
    so and the updater keeps them so. *)
Definition single_parts (w : World) : Prop :=
  Forall (fun m => List.length (parts m) = 1) (messages (state w)).

(** The message with id [assistantMessageId] given the single part
    [first text + content]; any other message as it is. *)
Definition appended (assistantMessageId content : string)
           (msg : ChatMessage) : ChatMessage :=
  if String.eqb (id msg) assistantMessageId
  then mkMessage (id msg) (role msg) [mkPart (first_text msg ++ content)%string]
  else msg.

(** Sample stream lines, in the shape the webhook sends them. *)
Definition event_line (type content : string) : string :=
  ("{" ++ Json.quoted "type" ++ ":" ++ Json.quoted type ++ ","
   ++ Json.quoted "content" ++ ":" ++ Json.quoted content ++ ","
   ++ Json.quoted "metadata" ++ ":{"
   ++ Json.quoted "nodeId" ++ ":" ++ Json.quoted "8f2c" ++ ","
   ++ Json.quoted "nodeName" ++ ":" ++ Json.quoted "AI Agent" ++ ","
   ++ Json.quoted "itemIndex" ++ ":0,"
   ++ Json.quoted "runIndex" ++ ":0,"
   ++ Json.quoted "timestamp" ++ ":1762027200000}}")%string.

Definition newline : string := String "010"%char EmptyString.

(** A source of ids for running examples: the letter [i], [n + 1] times. *)
Definition unary : nat -> string := UseChat.unary.

(** The body of a sample response as the transport shows it at three
    moments: after the first item, after the second, and after an error
    record. *)
Definition sample_buffer_1 : string :=
  (event_line "begin" EmptyString ++ newline
   ++ event_line "item" "Hi" ++ newline)%string.

Definition sample_buffer_2 : string :=
  (sample_buffer_1 ++ event_line "item" " there" ++ newline)%string.

Definition sample_buffer_3 : string :=
  (sample_buffer_2 ++ event_line "error" "boom" ++ newline)%string.

Definition sample_metadata : JSON :=
  JObject [("nodeId", JString "8f2c"); ("nodeName", JString "AI Agent");
           ("itemIndex", JNumber "0"); ("runIndex", JNumber "0");
           ("timestamp", JNumber "1762027200000")].

Definition sample_record (type content : string) : JSON :=
  JObject [("type", JString type); ("content", JString content);
           ("metadata", sample_metadata)].

(** What the component lives through: a submit, a progress tick of the
    request whose placeholder has the given id, the settling of a
    request. *)
Inductive Event : Type :=
| Submit (message : PromptInputMessage.t)
| Tick (assistantMessageId : string) (progressEvent : AxiosProgressEvent)
| Settle (outcome : Settlement).

Definition react (JSON_parse : string -> JsError + JSON)
           (JSON_stringify : JSON -> string) (e : Event)
  : M World Completion :=
  match e with
  | Submit message => handleSubmit_start message ;; ret Normal
  | Tick assistantMessageId progressEvent =>
      onDownloadProgress JSON_parse JSON_stringify assistantMessageId
                         progressEvent
  | Settle outcome => handleSubmit_resume outcome ;; ret Normal
  end.

(** A history of the component, with how each event ended. *)
Fixpoint history (JSON_parse : string -> JsError + JSON)
         (JSON_stringify : JSON -> string) (events : list Event)
  : M World (list Completion) :=
  match events with
  | [] => ret []
  | e :: rest =>
      c <- react JSON_parse JSON_stringify e ;;
      cs <- history JSON_parse JSON_stringify rest ;;
      ret (c :: cs)
  end.

(** More sample buffers: only the opening record; a line that is not
    JSON between two that are; two new items arriving in one tick; an item
    record without [content]. *)
Definition sample_buffer_opening : string :=
  (event_line "begin" EmptyString ++ newline)%string.

Definition sample_buffer_broken : string :=
  (sample_buffer_1 ++ "{oops" ++ newline
   ++ event_line "item" "!" ++ newline)%string.

Definition sample_buffer_burst : string :=
  (sample_buffer_1 ++ event_line "item" " the" ++ newline
   ++ event_line "item" "re" ++ newline)%string.

Definition sample_buffer_bare : string :=
  ("{" ++ Json.quoted "type" ++ ":" ++ Json.quoted "item" ++ "}"
   ++ newline)%string.

(** The text [+] makes of [lastResponse?.content]. *)
Definition content_text (lastResponse : option JSON) : string :=
  match property lastResponse "content" with
  | Some v => ToString v
  | None => "undefined"
  end.

Definition is_TypeError (c : Completion) : bool :=
  match c with
  | Throw (TypeError _) => true
  | _ => false
  end.

End Chat.

(** * Properties of Variant A *)

Module UseChatSpec.

Import St UseChat.
Local Open Scope list_scope.

Ltac run :=
  unfold send, append_resume, append_finally, append_catch, stop, step,
    onDownloadProgress, handleSubmit_start, handleSubmit_of_render,
    clearMessages,
    setMessages, setInput, setIsLoading, setError, set_abortControllerRef,
    new_AbortController, abort, nanoid, new_Date, emit, when,
    exec, eval, bind, ret, gets, modify; cbn.

(** *** Strings *)

Lemma trimStart_blank (s : string) :
  JS.all_white_space s = true -> JS.trimStart s = EmptyString.
Proof.
  unfold JS.all_white_space.
  induction s as [|c r IH]; cbn; [reflexivity|].
  intros H. apply andb_true_iff in H as [Hc Hr].
  rewrite Hc. now apply IH.
Qed.

Lemma trim_blank (s : string) :
  JS.all_white_space s = true -> JS.trim s = EmptyString.
Proof.
  intros H. unfold JS.trim. now rewrite trimStart_blank.
Qed.

Lemma trimEnd_empty_blank (s : string) :
  JS.trimEnd s = EmptyString -> JS.all_white_space s = true.
Proof.
  unfold JS.all_white_space.
  induction s as [|c r IH]; cbn; [reflexivity|].
  destruct (JS.trimEnd r) eqn:E.
  - destruct (JS.is_white_space c); [|discriminate].
    intros _. now rewrite IH.
  - discriminate.
Qed.


(** *** [stop] and [handleSubmit] *)

(** C10.  With no request in flight ([abortControllerRef.current] is
    [null]) [stop] changes nothing at all: [messages], [input],
    [isLoading] and [error] are as before, and so is everything else. *)
Theorem stop_idle_is_noop (w : World) :
  abortControllerRef w = None ->
  stop w = (tt, w)
  /\ conversation (exec stop w) = conversation w.
Proof.
  intros H. unfold exec, stop, bind, gets. rewrite H. split; reflexivity.
Qed.

Lemma stop_idle_is_noop_witness :
  let w := mount default_options unary 0%Z in
  stop w = (tt, w) /\ conversation (exec stop w) = conversation w.
Proof.
  cbv zeta. apply stop_idle_is_noop. reflexivity.
Defined.

(** C9.  When the submitted content (the string argument, else the draft
    in [input]) is empty or all white space, [handleSubmit] returns
    before [append]: no id is drawn, no request is posted, and
    [messages], [input], [isLoading] and [error] are unchanged. *)
Theorem handleSubmit_blank_is_noop (opts : UseChatOptions)
        (e : option SubmitArg) (w : World) :
  JS.all_white_space (submit_content e (input w)) = true ->
  let w' := exec (handleSubmit_start opts e) w in
  eval (handleSubmit_start opts e) w = Returned
  /\ conversation w' = conversation w
  /\ abortControllerRef w' = abortControllerRef w
  /\ nanoid_calls w' = nanoid_calls w
  /\ effects w' = effects w ++ match e with
                              | Some FormEvent => [PreventDefault]
                              | _ => []
                              end.
Proof.
  intros H. apply trim_blank in H.
  destruct w; destruct e as [[|s]|]; run; cbn in H; rewrite H; cbn;
    rewrite ?app_nil_r; repeat split; reflexivity.
Qed.

Lemma handleSubmit_blank_is_noop_witness :
  let opts := default_options in
  let w := mount opts unary 0%Z in
  let e := Some (SubmitString (String "009"%char "  ")) in
  let w' := exec (handleSubmit_start opts e) w in
  eval (handleSubmit_start opts e) w = Returned
  /\ conversation w' = conversation w
  /\ abortControllerRef w' = abortControllerRef w
  /\ nanoid_calls w' = nanoid_calls w
  /\ effects w' = effects w ++ [].
Proof.
  cbv zeta.
  apply (handleSubmit_blank_is_noop default_options
           (Some (SubmitString (String "009"%char "  ")))
           (mount default_options unary 0%Z)).
  reflexivity.
Defined.

(** *** The monad *)

Lemma exec_seq {S A B : Type} (m : M S A) (k : M S B) (w : S) :
  exec (bind m (fun _ => k)) w = exec k (exec m w).
Proof. unfold exec, bind. destruct (m w). reflexivity. Qed.

(** *** What a step changes *)

Lemma replace_parts_twice (a p q : string) (m : ChatMessage) :
  replace_parts a q (replace_parts a p m) = replace_parts a q m.
Proof.
  unfold replace_parts.
  destruct (String.eqb (id m) a) eqn:E; [|now rewrite E].
  change (id (with_text m p)) with (id m). now rewrite E.
Qed.

Lemma replace_parts_other (a p : string) (l : list ChatMessage) :
  ~ In a (map id l) -> map (replace_parts a p) l = l.
Proof.
  induction l as [|m l IH]; cbn [map In]; [reflexivity|].
  intros H. unfold replace_parts at 1.
  destruct (String.eqb_spec (id m) a) as [E|_].
  - exfalso. apply H. now left.
  - f_equal. apply IH. intros F. apply H. now right.
Qed.

Lemma replace_parts_self (a p : string) (m : ChatMessage) :
  id m = a -> replace_parts a p m = with_text m p.
Proof.
  intros <-. unfold replace_parts. now rewrite String.eqb_refl.
Qed.

Lemma stop_frame (w : World) :
  let w' := exec stop w in
  messages w' = messages w /\ input w' = input w /\ error w' = error w
  /\ effects w' = effects w /\ abortControllerRef w' = None
  /\ nanoid_calls w' = nanoid_calls w
  /\ (abortControllerRef w <> None -> isLoading w' = false).
Proof.
  destruct w as [? ? ? ? [c|] ? ? ? ? ? ?]; run;
    repeat split; congruence.
Qed.

Lemma progress_frame (opts : UseChatOptions) (req : Request)
      (progressEvent : AxiosProgressEvent) (w : World) :
  let w' := exec (onDownloadProgress opts req progressEvent) w in
  input w' = input w /\ error w' = error w /\ isLoading w' = isLoading w
  /\ abortControllerRef w' = abortControllerRef w
  /\ nanoid_calls w' = nanoid_calls w.
Proof.
  unfold onDownloadProgress.
  destruct (event_target progressEvent); [|repeat split; reflexivity].
  destruct w; destruct (onResponse opts); run; repeat split; reflexivity.
Qed.

Lemma progress_messages (opts : UseChatOptions) (req : Request)
      (progressEvent : AxiosProgressEvent) (w : World) :
  messages (exec (onDownloadProgress opts req progressEvent) w)
  = match event_target progressEvent with
    | Some xhr =>
        map (replace_parts (assistantMessageId req) (raw_payload xhr))
            (messages w)
    | None => messages w
    end.
Proof.
  unfold onDownloadProgress.
  destruct (event_target progressEvent); [|reflexivity].
  destruct w; destruct (onResponse opts); run; reflexivity.
Qed.

Lemma progress_effects (opts : UseChatOptions) (req : Request)
      (progressEvent : AxiosProgressEvent) (w : World) :
  effects (exec (onDownloadProgress opts req progressEvent) w)
  = effects w ++ responses opts [Progress progressEvent].
Proof.
  unfold onDownloadProgress, responses. cbn [payloads].
  destruct (event_target progressEvent).
  - destruct w; destruct (onResponse opts); run; now rewrite ?app_nil_r.
  - destruct (onResponse opts); cbn; now rewrite app_nil_r.
Qed.

(** *** What a run changes *)

Lemma overwrite_fold (a : string) (ps : list string) :
  forall ms : list ChatMessage,
    fold_left (fun l p => map (replace_parts a p) l) ps ms
    = match last (map Some ps) None with
      | Some p => map (replace_parts a p) ms
      | None => ms
      end.
Proof.
  induction ps as [|p ps IH]; intros ms; [reflexivity|].
  cbn [fold_left]. rewrite IH.
  destruct ps as [|q ps]; [reflexivity|].
  change (last (map Some (p :: q :: ps)) None)
    with (last (map Some (q :: ps)) None).
  destruct (last (map Some (q :: ps)) None) eqn:E.
  - rewrite map_map. apply map_ext. intros m. apply replace_parts_twice.
  - exfalso. clear -E. revert q E.
    induction ps as [|r ps IH]; intros q E; [discriminate|].
    now apply (IH r).
Qed.

Lemma drive_messages (opts : UseChatOptions) (req : Request)
      (steps : list Step) :
  forall w : World,
    messages (exec (drive opts req steps) w)
    = match last_payload steps with
      | Some p => map (replace_parts (assistantMessageId req) p) (messages w)
      | None => messages w
      end.
Proof.
  unfold last_payload. intros w. rewrite <- overwrite_fold. revert w.
  induction steps as [|s steps IH]; intros w; [reflexivity|].
  cbn [drive]. rewrite exec_seq, IH.
  destruct s as [progressEvent|]; cbn [step payloads].
  - rewrite progress_messages.
    destruct (event_target progressEvent); reflexivity.
  - now rewrite (proj1 (stop_frame w)).
Qed.

Lemma drive_frame (opts : UseChatOptions) (req : Request)
      (steps : list Step) :
  forall w : World,
    let w' := exec (drive opts req steps) w in
    input w' = input w /\ error w' = error w
    /\ nanoid_calls w' = nanoid_calls w
    /\ effects w' = effects w ++ responses opts steps.
Proof.
  induction steps as [|s steps IH]; intros w.
  - unfold responses. cbn. destruct (onResponse opts);
      rewrite app_nil_r; repeat split; reflexivity.
  - cbn zeta. cbn [drive]. rewrite exec_seq.
    destruct (IH (exec (step opts req s) w)) as (Hi & He & Hn & Hf).
    rewrite Hi, He, Hn, Hf. clear IH Hi He Hn Hf.
    destruct s as [progressEvent|]; cbn [step].
    + destruct (progress_frame opts req progressEvent w)
        as (Hi & He & _ & _ & Hn).
      rewrite Hi, He, Hn, progress_effects, <- app_assoc.
      repeat split. f_equal. unfold responses. cbn [payloads].
      destruct (onResponse opts); [|reflexivity].
      destruct (event_target progressEvent); reflexivity.
    + destruct (stop_frame w) as (_ & Hi & He & Hf & _ & Hn & _).
      rewrite Hi, He, Hn, Hf. repeat split.
Qed.

(** *** [append] up to the request *)

Lemma append_start_messages (opts : UseChatOptions) (message : AppendArg)
      (w : World) :
  messages (exec (append_start opts message) w)
  = messages w ++ [user_message_of message w; placeholder message w].
Proof.
  destruct w; destruct message as [m|s]; unfold append_start, append_of_render; run;
    match goal with
    | |- context [requestBody ?o ?h ?u] => destruct (requestBody o h u) as [e|b]
    end; cbn; try reflexivity;
    destruct (axios_isCancel e); cbn; try reflexivity;
    destruct (onError opts); reflexivity.
Qed.

Lemma requestBody_throws_TypeError (opts : UseChatOptions)
      (history : list ChatMessage) (userMessage : ChatMessage) (e : JsError) :
  requestBody opts history userMessage = inl e -> axios_isCancel e = false.
Proof.
  unfold requestBody.
  destruct (body opts) as [[r|f]|]; try discriminate;
    destruct (parts userMessage); try discriminate;
    intros [= <-]; reflexivity.
Qed.

Lemma append_start_awaiting (opts : UseChatOptions) (message : AppendArg)
      (w w1 : World) (req : Request) :
  append_start opts message w = (Awaiting req, w1) ->
  req = mkRequest (placeholder_id message w) (placeholder message w)
                  (controllers w)
  /\ error w1 = None /\ isLoading w1 = true
  /\ abortControllerRef w1 = Some (controllers w)
  /\ input w1 = match message with
                | Content _ => EmptyString
                | Message _ => input w
                end
  /\ exists payload,
       requestBody opts (messages w) (user_message_of message w)
       = inr payload
       /\ effects w1
          = effects w ++ [AxiosPost (api opts) payload (config_headers opts)
                                    (controllers w)].
Proof.
  destruct w; destruct message as [m|s]; unfold append_start, append_of_render; run;
    match goal with
    | |- context [requestBody ?o ?h ?u] =>
        destruct (requestBody o h u) as [e|b] eqn:E
    end; cbn.
  1, 3: destruct (axios_isCancel e); cbn; [discriminate|];
        destruct (onError opts); discriminate.
  all: intros [= <- <-]; cbn; repeat split; eauto.
Qed.

Lemma append_start_settled (opts : UseChatOptions) (message : AppendArg)
      (w w1 : World) :
  append_start opts message w = (Settled, w1) ->
  exists e,
    requestBody opts (messages w) (user_message_of message w) = inl e
    /\ axios_isCancel e = false
    /\ error w1 = Some e /\ isLoading w1 = false
    /\ abortControllerRef w1 = None
    /\ effects w1
       = effects w ++ ConsoleError "Error in useChat:" e
                      :: (if onError opts then [OnError e] else []).
Proof.
  destruct w; destruct message as [m|s]; unfold append_start, append_of_render; run;
    match goal with
    | |- context [requestBody ?o ?h ?u] =>
        destruct (requestBody o h u) as [e|b] eqn:E
    end; cbn; try discriminate;
    pose proof (requestBody_throws_TypeError _ _ _ _ E) as C;
    rewrite C; cbn; destruct (onError opts); cbn;
    intros [= <-]; exists e; cbn; rewrite <- ?app_assoc;
    repeat split; assumption || reflexivity.
Qed.

(** *** [append] once the request has settled *)

Lemma resume_frame (opts : UseChatOptions) (req : Request)
      (outcome : Settlement) (w : World) :
  let w' := exec (append_resume opts req outcome) w in
  messages w' = messages w /\ input w' = input w
  /\ isLoading w' = false /\ abortControllerRef w' = None.
Proof.
  destruct w; destruct outcome as [|err]; run.
  - destruct (onFinish opts); repeat split; reflexivity.
  - destruct (axios_isCancel err); cbn; [repeat split; reflexivity|].
    destruct (onError opts); repeat split; reflexivity.
Qed.

Lemma resume_fulfilled (opts : UseChatOptions) (req : Request) (w : World) :
  let w' := exec (append_resume opts req Fulfilled) w in
  error w' = error w
  /\ effects w'
     = effects w ++ (if onFinish opts then [OnFinish (assistantMessage req)]
                     else []).
Proof.
  destruct w; run.
  destruct (onFinish opts); cbn; rewrite ?app_nil_r; split; reflexivity.
Qed.

Lemma resume_cancelled (opts : UseChatOptions) (req : Request)
      (err : JsError) (w : World) :
  axios_isCancel err = true ->
  let w' := exec (append_resume opts req (Rejected err)) w in
  error w' = error w
  /\ effects w' = effects w ++ [ConsoleLog "Request canceled"].
Proof.
  intros C. destruct w; run. rewrite C. split; reflexivity.
Qed.

Lemma resume_failed (opts : UseChatOptions) (req : Request)
      (err : JsError) (w : World) :
  axios_isCancel err = false ->
  let w' := exec (append_resume opts req (Rejected err)) w in
  error w' = Some err
  /\ effects w'
     = effects w ++ ConsoleError "Error in useChat:" err
                    :: (if onError opts then [OnError err] else []).
Proof.
  intros C. destruct w; run. rewrite C. cbn.
  destruct (onError opts); cbn; rewrite <- ?app_assoc; split; reflexivity.
Qed.

(** *** Whole sends *)

Lemma send_awaiting (opts : UseChatOptions) (message : AppendArg)
      (steps : list Step) (outcome : Settlement) (w w1 : World)
      (req : Request) :
  append_start opts message w = (Awaiting req, w1) ->
  exec (send opts message steps outcome) w
  = exec (append_resume opts req outcome) (exec (drive opts req steps) w1).
Proof.
  intros E. unfold send, exec at 1, bind at 1. rewrite E.
  fold (bind (drive opts req steps)
             (fun _ => bind (append_resume opts req outcome)
                            (fun _ => ret (Awaiting req)))).
  unfold exec, bind, ret.
  destruct (drive opts req steps w1) as [[] w2]. cbn.
  destruct (append_resume opts req outcome w2) as [[] w3]. reflexivity.
Qed.

Lemma send_settled (opts : UseChatOptions) (message : AppendArg)
      (steps : list Step) (outcome : Settlement) (w w1 : World) :
  append_start opts message w = (Settled, w1) ->
  exec (send opts message steps outcome) w = w1.
Proof.
  intros E. unfold send, exec, bind. rewrite E. reflexivity.
Qed.

Lemma placeholder_fresh (message : AppendArg) (w : World) :
  nanoid_unique w (brought_ids message) ->
  ~ In (placeholder_id message w)
       (map id (messages w ++ [user_message_of message w])).
Proof.
  intros [Hinj Hnew]. rewrite map_app. cbn [map].
  destruct message as [m|s]; cbn [brought_ids] in Hnew;
    unfold placeholder_id, user_message_of; cbn [id].
  - apply Hnew. apply Nat.le_refl.
  - intros F. apply in_app_or in F as [F|[F|[]]].
    + apply (Hnew (S (nanoid_calls w))); [apply Nat.le_succ_diag_r|].
      apply in_or_app. now left.
    + apply Hinj in F; [|apply Nat.le_refl|apply Nat.le_succ_diag_r].
      now apply (Nat.neq_succ_diag_r (nanoid_calls w)).
Qed.

Lemma overwrite_turn (message : AppendArg) (w : World) (t : string) :
  nanoid_unique w (brought_ids message) ->
  map (replace_parts (placeholder_id message w) t)
      (messages w ++ [user_message_of message w; placeholder message w])
  = messages w
    ++ [user_message_of message w; with_text (placeholder message w) t].
Proof.
  intros U. apply placeholder_fresh in U.
  change (messages w ++ [user_message_of message w; placeholder message w])
    with (messages w ++ [user_message_of message w]
                      ++ [placeholder message w]).
  rewrite app_assoc, map_app, replace_parts_other by exact U.
  rewrite <- app_assoc. cbn [map app].
  now rewrite replace_parts_self by reflexivity.
Qed.

Lemma drive_turn (opts : UseChatOptions) (message : AppendArg)
      (steps : list Step) (w w1 : World) (req : Request) :
  nanoid_unique w (brought_ids message) ->
  append_start opts message w = (Awaiting req, w1) ->
  messages (exec (drive opts req steps) w1)
  = messages w
    ++ [user_message_of message w;
        with_text (placeholder message w) (streamed_text steps)].
Proof.
  intros U E.
  pose proof (append_start_messages opts message w) as Hm.
  unfold exec in Hm. rewrite E in Hm. cbn [snd] in Hm.
  apply append_start_awaiting in E as (-> & _).
  rewrite drive_messages, Hm. unfold streamed_text. cbn [assistantMessageId].
  destruct (last_payload steps) as [t|].
  - now apply overwrite_turn.
  - reflexivity.
Qed.

Lemma send_messages (opts : UseChatOptions) (message : AppendArg)
      (steps : list Step) (outcome : Settlement) (w : World) :
  nanoid_unique w (brought_ids message) ->
  messages (exec (send opts message steps outcome) w)
  = messages w
    ++ [user_message_of message w;
        with_text (placeholder message w)
                  (final_text (eval (append_start opts message) w) steps)].
Proof.
  intros U. unfold eval.
  destruct (append_start opts message w) as [[|req] w1] eqn:E; cbn [fst].
  - rewrite (send_settled _ _ _ _ _ _ E).
    pose proof (append_start_messages opts message w) as Hm.
    unfold exec in Hm. rewrite E in Hm. exact Hm.
  - rewrite (send_awaiting _ _ _ _ _ _ _ E).
    rewrite (proj1 (resume_frame _ _ _ _)).
    now apply drive_turn.
Qed.

(** *** The example id source *)

Lemma unary_length (n : nat) : String.length (unary n) = S n.
Proof. induction n; cbn; congruence. Qed.

Lemma unary_inj (i j : nat) : unary i = unary j -> i = j.
Proof.
  intros E. apply (f_equal String.length) in E.
  rewrite !unary_length in E. now injection E.
Qed.

Lemma unary_unique (w : World) (others : list string) :
  nanoid_source w = unary ->
  (forall n, ~ In (unary n) (map id (messages w) ++ others)) ->
  nanoid_unique w others.
Proof.
  intros E H. split; rewrite E.
  - intros i j _ _. apply unary_inj.
  - intros i _. apply H.
Qed.

Lemma payloads_app (a b : list Step) :
  payloads (a ++ b) = payloads a ++ payloads b.
Proof.
  induction a as [|[progressEvent|] a IH]; cbn; [reflexivity| |exact IH].
  destruct (event_target progressEvent); cbn; now rewrite IH.
Qed.

Lemma last_payload_snoc (steps : list Step) (xhr : XMLHttpRequest) :
  last_payload
    (steps ++ [Progress (mkProgress (Some (mkBrowserEvent (Some xhr))))])
  = Some (raw_payload xhr).
Proof.
  unfold last_payload. rewrite payloads_app. cbn [payloads event_target].
  cbn. rewrite map_app. cbn [map]. apply last_last.
Qed.

Lemma last_payload_repeat (steps : list Step)
      (progressEvent : AxiosProgressEvent) :
  last_payload (steps ++ [Progress progressEvent; Progress progressEvent])
  = last_payload (steps ++ [Progress progressEvent]).
Proof.
  unfold last_payload. rewrite !payloads_app. cbn [payloads].
  destruct (event_target progressEvent) as [xhr|]; [|reflexivity].
  change [raw_payload xhr; raw_payload xhr]
    with ([raw_payload xhr] ++ [raw_payload xhr]).
  rewrite app_assoc, !map_app. cbn [map]. now rewrite !last_last.
Qed.

(** *** The claims about sending *)



Lemma raw_payload_cases (xhr : XMLHttpRequest) :
  raw_payload xhr = match responseText xhr with
                    | EmptyString => response xhr
                    | String _ _ => responseText xhr
                    end.
Proof. unfold raw_payload. now destruct (responseText xhr). Qed.

Lemma streamed_text_ticks (texts : list string) :
  streamed_text (map (fun t => Progress (tick t)) texts)
  = last texts EmptyString.
Proof.
  unfold streamed_text, last_payload.
  assert (payloads (map (fun t => Progress (tick t)) texts) = texts) as ->.
  { induction texts as [|t texts IH]; cbn; [reflexivity|].
    rewrite IH. f_equal. now destruct t. }
  induction texts as [|t texts IH]; [reflexivity|].
  destruct texts as [|u texts]; [reflexivity|].
  change (last (map Some (t :: u :: texts)) None)
    with (last (map Some (u :: texts)) None).
  change (last (t :: u :: texts) EmptyString)
    with (last (u :: texts) EmptyString).
  exact IH.
Qed.

(** C4.  In Variant A every progress notification overwrites the text of
    the assistant placeholder with its raw payload, verbatim: after any
    run of notifications the placeholder is the message it was created as
    (id, role, creation time) with a single part of type text whose text
    is the last payload (the empty string before the first); for ticks
    showing the texts of a list in turn, that is the last text of the
    list.  The user message and the earlier messages are untouched, and
    delivering the same notification a second time changes nothing. *)
Theorem progress_overwrites_placeholder (opts : UseChatOptions)
        (message : AppendArg) (steps : list Step) (w w1 : World)
        (req : Request) :
  nanoid_unique w (brought_ids message) ->
  append_start opts message w = (Awaiting req, w1) ->
  let userMessage := user_message_of message w in
  let shown := fun t : string =>
    mkMessage (placeholder_id message w) assistant
              [mkPart Text (Some t) None None] (Some (clock w)) in
  messages (exec (drive opts req steps) w1)
  = messages w ++ [userMessage; shown (streamed_text steps)]
  /\ (forall xhr,
        let progressEvent := mkProgress (Some (mkBrowserEvent (Some xhr))) in
        messages (exec (drive opts req (steps ++ [Progress progressEvent])) w1)
        = messages w
          ++ [userMessage;
              shown match responseText xhr with
                    | EmptyString => response xhr
                    | String _ _ => responseText xhr
                    end])
  /\ (forall texts : list string,
        messages (exec (drive opts req
                          (map (fun t => Progress (tick t)) texts)) w1)
        = messages w ++ [userMessage; shown (last texts EmptyString)])
  /\ (forall progressEvent,
        messages (exec (drive opts req
                          (steps ++ [Progress progressEvent;
                                     Progress progressEvent])) w1)
        = messages (exec (drive opts req (steps ++ [Progress progressEvent]))
                         w1)).
Proof.
  intros U E. cbv zeta.
  split; [exact (drive_turn _ _ _ _ _ _ U E)|]. split; [|split].
  - intros xhr. rewrite (drive_turn _ _ _ _ _ _ U E).
    unfold streamed_text. rewrite last_payload_snoc, raw_payload_cases.
    reflexivity.
  - intros texts. rewrite (drive_turn _ _ _ _ _ _ U E), streamed_text_ticks.
    reflexivity.
  - intros progressEvent.
    now rewrite !drive_messages, last_payload_repeat.
Qed.

Lemma progress_overwrites_placeholder_witness :
  let opts := default_options in
  let w := mount opts unary 0%Z in
  let req := mkRequest "ii" (placeholder (Content "hi") w) 0 in
  let w1 := exec (append_start opts (Content "hi")) w in
  map part_texts
      (messages (exec (drive opts req [Progress (tick "He");
                                       Progress (tick "Hello");
                                       Progress (tick "Hello!")]) w1))
  = [[Some "hi"]; [Some "Hello!"]].
Proof.
  cbv zeta.
  destruct (progress_overwrites_placeholder default_options (Content "hi")
              []
              (mount default_options unary 0%Z)
              (exec (append_start default_options (Content "hi"))
                    (mount default_options unary 0%Z))
              (mkRequest "ii"
                 (placeholder (Content "hi")
                              (mount default_options unary 0%Z)) 0))
    as (_ & _ & H & _).
  - apply unary_unique; [reflexivity|]. intros n [].
  - reflexivity.
  - specialize (H ["He"; "Hello"; "Hello!"]).
    apply (f_equal (map part_texts)) in H. exact H.
Defined.

(** C7.  A send that fails for a reason other than cancellation ends with
    the error in [error], [onError] called with it (when configured),
    [isLoading] false, and [messages] exactly as they were when the
    failure was caught: the placeholder keeps whatever text had streamed
    in.  That covers a request the transport rejects with [err] and a
    call that throws while the payload is built. *)
Theorem failed_send_keeps_partial_text (opts : UseChatOptions)
        (message : AppendArg) (steps : list Step) (err : JsError)
        (w : World) :
  axios_isCancel err = false ->
  let w3 := exec (send opts message steps (Rejected err)) w in
  isLoading w3 = false
  /\ match append_start opts message w with
     | (Awaiting req, w1) =>
         let w2 := exec (drive opts req steps) w1 in
         error w3 = Some err
         /\ messages w3 = messages w2
         /\ effects w3
            = effects w2 ++ ConsoleError "Error in useChat:" err
                            :: (if onError opts then [OnError err] else [])
     | (Settled, _) =>
         exists thrown,
           axios_isCancel thrown = false
           /\ error w3 = Some thrown
           /\ messages w3
              = messages w
                ++ [user_message_of message w; placeholder message w]
           /\ effects w3
              = effects w ++ ConsoleError "Error in useChat:" thrown
                             :: (if onError opts then [OnError thrown]
                                 else [])
     end
  /\ (nanoid_unique w (brought_ids message) ->
      messages w3
      = messages w
        ++ [user_message_of message w;
            with_text (placeholder message w)
              (final_text (eval (append_start opts message) w) steps)]).
Proof.
  intros C. cbv zeta.
  split; [|split; [|apply send_messages]];
    destruct (append_start opts message w) as [[|req] w1] eqn:E.
  - rewrite (send_settled _ _ _ _ _ _ E).
    now apply append_start_settled in E as (e & _ & _ & _ & H & _).
  - rewrite (send_awaiting _ _ _ _ _ _ _ E). apply resume_frame.
  - rewrite (send_settled _ _ _ _ _ _ E).
    pose proof (append_start_messages opts message w) as Hm.
    unfold exec in Hm. rewrite E in Hm. cbn [snd] in Hm.
    apply append_start_settled in E as (e & _ & Ce & He & _ & _ & Hf).
    exists e. repeat split; assumption.
  - rewrite (send_awaiting _ _ _ _ _ _ _ E).
    destruct (resume_failed opts req err (exec (drive opts req steps) w1) C)
      as (He & Hf).
    repeat split; [exact He|apply resume_frame|exact Hf].
Qed.

Lemma failed_send_keeps_partial_text_witness :
  let opts := mkOptions "/api/chat" [] false false true [] None in
  let w := mount opts unary 0%Z in
  let err := AxiosError "Network Error" in
  let w3 := exec (send opts (Content "hi") [Progress (tick "Hel")]
                       (Rejected err)) w in
  isLoading w3 = false
  /\ error w3 = Some err
  /\ messages w3
     = [mkMessage "i" user [text_part "hi"] (Some 0%Z);
        mkMessage "ii" assistant [text_part "Hel"] (Some 0%Z)]
  /\ In (OnError err) (effects w3).
Proof.
  cbv zeta.
  pose proof (failed_send_keeps_partial_text
                (mkOptions "/api/chat" [] false false true [] None)
                (Content "hi") [Progress (tick "Hel")]
                (AxiosError "Network Error")
                (mount (mkOptions "/api/chat" [] false false true [] None)
                       unary 0%Z)
                eq_refl) as (H1 & H2 & H3).
  cbn in H2. destruct H2 as (He & _ & Hf).
  split; [exact H1|]. split; [exact He|]. split.
  - apply H3. apply unary_unique; [reflexivity|]. intros n [].
  - vm_compute. right. right. left. reflexivity.
Defined.

(** C8.  A send that ends by cancellation ends quietly: [error] stays
    unset, [onError] is not called (the only thing the handler does is a
    console line), and [isLoading] ends up false.  Over the whole send the
    hook posts the request, forwards the payloads to [onResponse], and
    logs the cancellation; nothing else leaves it. *)
Theorem cancelled_send_is_quiet (opts : UseChatOptions)
        (message : AppendArg) (steps : list Step) (err : JsError)
        (w w1 : World) (req : Request) :
  axios_isCancel err = true ->
  append_start opts message w = (Awaiting req, w1) ->
  let w3 := exec (send opts message steps (Rejected err)) w in
  error w3 = None
  /\ isLoading w3 = false
  /\ (exists payload,
        effects w3
        = effects w
          ++ [AxiosPost (api opts) payload (config_headers opts)
                        (abortController req)]
          ++ responses opts steps ++ [ConsoleLog "Request canceled"])
  /\ (forall e, In (OnError e) (effects w3) -> In (OnError e) (effects w)).
Proof.
  intros C E. cbv zeta. rewrite (send_awaiting _ _ _ _ _ _ _ E).
  destruct (resume_cancelled opts req err (exec (drive opts req steps) w1) C)
    as (He & Hf).
  destruct (drive_frame opts req steps w1) as (_ & He' & _ & Hf').
  apply append_start_awaiting in E
    as (-> & He1 & _ & _ & _ & payload & _ & Hf1).
  assert (effects (exec (append_resume opts
                           (mkRequest (placeholder_id message w)
                                      (placeholder message w) (controllers w))
                           (Rejected err))
                        (exec (drive opts
                                 (mkRequest (placeholder_id message w)
                                    (placeholder message w) (controllers w))
                                 steps) w1))
          = effects w
            ++ [AxiosPost (api opts) payload (config_headers opts)
                          (controllers w)]
            ++ responses opts steps ++ [ConsoleLog "Request canceled"]) as F.
  { rewrite Hf, Hf', Hf1. now rewrite <- !app_assoc. }
  split; [congruence|]. split; [apply resume_frame|].
  split; [exists payload; exact F|].
  intros e. rewrite F. intros H.
  apply in_app_or in H as [H|H]; [exact H|]. exfalso.
  destruct H as [H|H]; [discriminate|].
  cbn [app] in H. apply in_app_or in H as [H|[H|[]]]; [|discriminate].
  unfold responses in H. destruct (onResponse opts); [|destruct H].
  apply in_map_iff in H as (x & Hx & _). discriminate.
Qed.

Lemma cancelled_send_is_quiet_witness :
  let opts := mkOptions "/api/chat" [] true true true [] None in
  let w := mount opts unary 0%Z in
  let w3 := exec (send opts (Content "hi") [Progress (tick "He"); Stop]
                       (Rejected (CanceledError "canceled"))) w in
  error w3 = None /\ isLoading w3 = false
  /\ forall e, ~ In (OnError e) (effects w3).
Proof.
  cbv zeta.
  destruct (cancelled_send_is_quiet
              (mkOptions "/api/chat" [] true true true [] None)
              (Content "hi") [Progress (tick "He"); Stop]
              (CanceledError "canceled")
              (mount (mkOptions "/api/chat" [] true true true [] None)
                     unary 0%Z)
              _ _ eq_refl eq_refl) as (He & Hl & _ & Hn).
  split; [exact He|]. split; [exact Hl|].
  intros e H. exact (Hn e H).
Defined.

(** *** The finish callback *)

(** On success [onFinish] is called once, after every [onResponse], and
    its argument is the [assistantMessage] the call of [append] built before
    the request: the placeholder with the empty text, whatever has been
    streamed since. *)
Lemma successful_send_effects (opts : UseChatOptions) (message : AppendArg)
      (steps : list Step) (w w1 : World) (req : Request) :
  append_start opts message w = (Awaiting req, w1) ->
  let w3 := exec (send opts message steps Fulfilled) w in
  part_texts (placeholder message w) = [Some EmptyString]
  /\ exists payload,
       effects w3
       = effects w
         ++ [AxiosPost (api opts) payload (config_headers opts)
                       (abortController req)]
         ++ responses opts steps
         ++ (if onFinish opts then [OnFinish (placeholder message w)]
             else []).
Proof.
  intros E. cbv zeta. split; [reflexivity|].
  rewrite (send_awaiting _ _ _ _ _ _ _ E).
  rewrite (proj2 (resume_fulfilled _ _ _)).
  rewrite (proj2 (proj2 (proj2 (drive_frame opts req steps w1)))).
  apply append_start_awaiting in E
    as (-> & _ & _ & _ & _ & payload & _ & ->).
  exists payload. now rewrite <- !app_assoc.
Qed.

(** C1.  The send [append("hi")] with [onFinish] configured, two progress
    ticks showing [He] and then [Hello], and a request that succeeds:
    [messages] ends with the assistant message reading [Hello], and
    [onFinish] is called exactly once, with a message whose text part is
    still the empty string. *)
Theorem finish_callback_receives_initial_placeholder :
  let opts := mkOptions "/api/chat" [] false true false [] None in
  let w := mount opts unary 0%Z in
  let userMessage := mkMessage "i" user [text_part "hi"] (Some 0%Z) in
  let w3 := exec (send opts (Content "hi")
                       [Progress (tick "He"); Progress (tick "Hello")]
                       Fulfilled) w in
  messages w3
  = [userMessage; mkMessage "ii" assistant [text_part "Hello"] (Some 0%Z)]
  /\ effects w3
     = [AxiosPost "/api/chat"
                  (DefaultBody [userMessage] (Some "hi") [])
                  [("Content-Type", "application/json")] 0;
        OnFinish (mkMessage "ii" assistant [text_part EmptyString] (Some 0%Z))]
  /\ isLoading w3 = false.
Proof. repeat split; reflexivity. Qed.

(** *** [stop] and late notifications *)



End UseChatSpec.

(** * Properties of Variant B *)

Module ChatSpec.

Import St Chat.
Local Open Scope list_scope.

Ltac run :=
  unfold handleSubmit_start, handleSubmit_resume, append_to_placeholder,
    setMessages, nanoid, emit, exec, eval, bind, ret, gets, modify; cbn.

(** *** Lines *)

Lemma split_nonempty (sep : ascii) (s : string) : JS.split sep s <> [].
Proof.
  destruct s as [|c r]; cbn; [discriminate|].
  destruct (Ascii.eqb c sep); [discriminate|].
  destruct (JS.split sep r); discriminate.
Qed.

(** Joining the pieces of [s.split(sep)] with [sep] gives [s] back. *)
Lemma split_join (sep : ascii) (s : string) :
  String.concat (String sep EmptyString) (JS.split sep s) = s.
Proof.
  induction s as [|c r IH]; [reflexivity|].
  cbn [JS.split]. destruct (Ascii.eqb_spec c sep) as [->|N].
  - pose proof (split_nonempty sep r) as NE.
    destruct (JS.split sep r) as [|p ps]; [contradiction|].
    change (String.concat (String sep EmptyString) (EmptyString :: p :: ps))
      with (String sep (String.concat (String sep EmptyString) (p :: ps))).
    now rewrite IH.
  - pose proof (split_nonempty sep r) as NE.
    destruct (JS.split sep r) as [|p ps]; [contradiction|].
    destruct ps as [|q ps]; cbn in IH |- *; now rewrite IH.
Qed.

(** No piece of [s.split(sep)] holds the separator. *)
Lemma split_pieces (sep : ascii) (s : string) :
  Forall (fun p => ~ In sep (list_ascii_of_string p)) (JS.split sep s).
Proof.
  induction s as [|c r IH]; cbn [JS.split].
  - constructor; [intros []|constructor].
  - destruct (Ascii.eqb_spec c sep) as [->|N].
    + constructor; [intros []|exact IH].
    + pose proof (split_nonempty sep r) as NE.
      destruct (JS.split sep r) as [|p ps]; [contradiction|].
      inversion IH as [|? ? Hp Hps]; subst.
      constructor; [|exact Hps].
      cbn. intros [F|F]; [now apply N|now apply Hp].
Qed.

Lemma lines_truthy (raw line : string) :
  In line (lines raw) -> line <> EmptyString.
Proof.
  unfold lines. intros H. apply filter_In in H as [_ H].
  now destruct line.
Qed.

(** [parse_buffer] answers a list exactly when every non-empty line
    parses, and the list holds the parsed lines in order. *)
Lemma parse_buffer_lines (JSON_parse : string -> JsError + JSON)
      (raw : string) (parsed : list JSON) :
  parse_buffer JSON_parse raw = inr parsed
  <-> Forall2 (fun line v => JSON_parse line = inr v) (lines raw) parsed.
Proof.
  unfold parse_buffer. generalize (lines raw) as l. intros l. revert parsed.
  induction l as [|line l IH]; intros parsed; cbn [map_throwing].
  - split.
    + intros [= <-]. constructor.
    + intros H. inversion H. reflexivity.
  - split.
    + destruct (JSON_parse line) as [e|v] eqn:E; [discriminate|].
      destruct (map_throwing JSON_parse l) as [e|vs] eqn:E'; [discriminate|].
      intros [= <-]. constructor; [exact E|]. now apply IH.
    + intros H. inversion H as [|? v ? vs Hv Hvs]; subst.
      rewrite Hv. apply IH in Hvs. now rewrite Hvs.
Qed.

(** *** The updater *)

Lemma or_empty_id (a : string) : or_empty a = a.
Proof. now destruct a. Qed.


Lemma appended_single_parts (assistantMessageId c : string)
      (l : list ChatMessage) :
  Forall (fun m => List.length (parts m) = 1) l ->
  Forall (fun m => List.length (parts m) = 1) (map (appended assistantMessageId c) l).
Proof.
  induction 1 as [|m l Hm Hl IH]; constructor; [|exact IH].
  unfold appended. now destruct (String.eqb (id m) assistantMessageId).
Qed.

(** The worlds the component reaches keep one part per message. *)
Lemma mount_single_parts (ids : nat -> string) : single_parts (mount ids).
Proof. constructor. Qed.

Lemma handleSubmit_start_single_parts (message : PromptInputMessage.t)
      (w : World) :
  single_parts w -> single_parts (exec (handleSubmit_start message) w).
Proof.
  destruct w as [[ms] src n fx]. unfold single_parts. run. intros H.
  apply Forall_app. split; [exact H|]. repeat constructor.
Qed.

Lemma handleSubmit_resume_state (outcome : Settlement) (w : World) :
  state (exec (handleSubmit_resume outcome) w) = state w.
Proof. destruct w, outcome; reflexivity. Qed.

Lemma append_content_single_parts (assistantMessageId : string)
      (lastResponse : option JSON) (l next : list ChatMessage) :
  Forall (fun m => List.length (parts m) = 1) l ->
  map_throwing (append_content assistantMessageId lastResponse) l = inr next ->
  Forall (fun m => List.length (parts m) = 1) next.
Proof.
  intros H. revert next.
  induction H as [|m l Hm Hl IH]; intros next; cbn [map_throwing].
  - intros [= <-]. constructor.
  - unfold append_content at 1.
    destruct (String.eqb (id m) assistantMessageId).
    + destruct (parts m) as [|p ps]; [discriminate|].
      destruct (map_throwing _ l) as [e|bs]; [discriminate|].
      intros [= <-]. constructor; [reflexivity|now apply IH].
    + destruct (map_throwing _ l) as [e|bs]; [discriminate|].
      intros [= <-]. constructor; [exact Hm|now apply IH].
Qed.

Lemma progress_single_parts (JSON_parse : string -> JsError + JSON)
      (JSON_stringify : JSON -> string) (assistantMessageId : string)
      (progressEvent : AxiosProgressEvent) (w : World) :
  single_parts w ->
  single_parts (exec (onDownloadProgress JSON_parse JSON_stringify
                                         assistantMessageId progressEvent) w).
Proof.
  intros H. unfold onDownloadProgress.
  destruct (event_target progressEvent) as [xhr|]; [|exact H].
  destruct (parse_buffer JSON_parse (response xhr)) as [e|parsed]; [exact H|].
  destruct w as [[ms] src n fx]. unfold single_parts in *. cbn in H. run.
  destruct (strict_equal (property (at_last parsed) "type") "item").
  - cbn [messages state].
    destruct (map_throwing
                (append_content assistantMessageId (at_last parsed)) ms)
      as [e|next] eqn:En; cbn; [exact H|].
    destruct (strict_equal (property (at_last parsed) "type") "error");
      cbn; exact (append_content_single_parts _ _ _ _ H En).
  - cbn. destruct (strict_equal (property (at_last parsed) "type") "error");
      exact H.
Qed.

Lemma last_record_parsed (JSON_parse : string -> JsError + JSON)
      (raw : string) (record : JSON) :
  last_record JSON_parse raw = Some record ->
  exists parsed,
    parse_buffer JSON_parse raw = inr parsed
    /\ at_last parsed = Some record.
Proof.
  unfold last_record.
  destruct (parse_buffer JSON_parse raw) as [e|parsed]; [discriminate|].
  intros H. now exists parsed.
Qed.

(** *** The claims about the structured stream *)



(** After [handleSubmit], a progress tick whose last record is an error
    record, and the [catch] of the failure it raised, the component's
    state is what it was before the tick: the failure went to the
    console and nowhere else. *)
Lemma error_record_leaves_state :
  let w0 := mount unary in
  let submit := handleSubmit_start (PromptInputMessage.make "Hello") in
  let handler := onDownloadProgress reference_parse Json.stringify
                                    (eval submit w0) in
  let w2 := exec (handler (tick sample_buffer_2))
                 (exec (handler (tick sample_buffer_1)) (exec submit w0)) in
  let thrown := Error (Json.stringify (sample_record "error" "boom")) in
  eval (handler (tick sample_buffer_3)) w2 = Throw thrown
  /\ let w4 := exec (handleSubmit_resume (Rejected thrown))
                    (exec (handler (tick sample_buffer_3)) w2) in
     state w4 = state w2
     /\ map part_texts (messages (state w4)) = [["Hello"]; ["Hi there"]]
     /\ last (effects w4) (AxiosPost EmptyString [])
        = ConsoleError "Error fetching chat response:" thrown.
Proof. vm_compute. repeat split. Qed.

(** C3, as the code has it.  When the last record of the buffer has
    [type] ["error"], the handler raises [new Error] carrying the
    serialized record and appends nothing: [messages] stays as it
    was.  The component has no state but [messages], so nothing records
    the failure; the [catch] it may reach only writes to the console. *)
Theorem error_record_is_raised
        (JSON_parse : string -> JsError + JSON)
        (JSON_stringify : JSON -> string)
        (assistantMessageId : string) (progressEvent : AxiosProgressEvent)
        (xhr : XMLHttpRequest) (record : JSON) (w : World) :
  event_target progressEvent = Some xhr ->
  last_record JSON_parse (response xhr) = Some record ->
  property (Some record) "type" = Some (JString "error") ->
  let handler :=
    onDownloadProgress JSON_parse JSON_stringify assistantMessageId
                       progressEvent in
  eval handler w = Throw (Error (JSON_stringify record))
  /\ state (exec handler w) = state w
  /\ forall outcome,
       let w' := exec (handleSubmit_resume outcome) (exec handler w) in
       state w' = state w
       /\ match outcome with
          | Rejected err =>
              last (effects w') (AxiosPost EmptyString [])
              = ConsoleError "Error fetching chat response:" err
          | Fulfilled => effects w' = effects (exec handler w)
          end.
Proof.
  intros Ht Hr Hty. cbv zeta.
  apply last_record_parsed in Hr as (parsed & Hb & Hl).
  unfold onDownloadProgress. rewrite Ht, Hb, Hl, Hty.
  destruct w as [[ms] src n fx]. run.
  split; [reflexivity|]. split; [reflexivity|].
  intros [|err]; cbn; split; try reflexivity.
  now rewrite !last_last.
Qed.

Lemma error_record_is_raised_witness :
  let w0 := mount unary in
  let submit := handleSubmit_start (PromptInputMessage.make "Hello") in
  let handler := onDownloadProgress reference_parse Json.stringify
                                    (eval submit w0)
                                    (tick sample_buffer_3) in
  eval handler (exec submit w0)
  = Throw (Error (Json.stringify (sample_record "error" "boom")))
  /\ state (exec handler (exec submit w0)) = state (exec submit w0).
Proof.
  cbv zeta.
  destruct (error_record_is_raised
              reference_parse Json.stringify "ii" (tick sample_buffer_3)
              (mkXhr sample_buffer_3 sample_buffer_3)
              (sample_record "error" "boom")
              (exec (handleSubmit_start (PromptInputMessage.make "Hello"))
                    (mount unary))
              eq_refl eq_refl eq_refl) as (H1 & H2 & _).
  split; [exact H1|exact H2].
Defined.

End ChatSpec.


(** * Further properties of Variant A *)

Module UseChatExtra.

Import St UseChat UseChatSpec.
Local Open Scope list_scope.

(** *** [append] up to the request *)

Lemma append_start_controllers (opts : UseChatOptions) (message : AppendArg)
      (w : World) :
  let w1 := exec (append_start opts message) w in
  controllers w1 = S (controllers w) /\ aborted w1 = aborted w.
Proof.
  destruct w; destruct message as [m|s]; unfold append_start, append_of_render; run;
    match goal with
    | |- context [requestBody ?o ?h ?u] => destruct (requestBody o h u) as [e|b]
    end; cbn; try (split; reflexivity);
    destruct (axios_isCancel e); cbn; try (split; reflexivity);
    destruct (onError opts); split; reflexivity.
Qed.

Lemma requestBody_posted (opts : UseChatOptions) (history : list ChatMessage)
      (userMessage : ChatMessage) (payload : RequestBody) :
  requestBody opts history userMessage = inr payload ->
  payload = posted_body opts history userMessage.
Proof.
  unfold requestBody, posted_body.
  destruct (body opts) as [[r|f]|]; destruct (parts userMessage);
    try discriminate; now intros [= <-].
Qed.


(** X1.  While a send is in flight [isLoading] is true, [error] is unset
    whatever it held before, the handle is the controller made for this
    request (a new one, and no controller has been aborted on the way); the
    draft is cleared when the argument was a string and kept when it was a
    message. *)
Theorem append_opens_request (opts : UseChatOptions) (message : AppendArg)
        (w w1 : World) (req : Request) :
  append_start opts message w = (Awaiting req, w1) ->
  isLoading w1 = true
  /\ error w1 = None
  /\ abortControllerRef w1 = Some (abortController req)
  /\ abortController req = controllers w
  /\ controllers w1 = S (controllers w)
  /\ aborted w1 = aborted w
  /\ input w1 = match message with
                | Content _ => EmptyString
                | Message _ => input w
                end.
Proof.
  intros E.
  destruct (append_start_controllers opts message w) as (Hc & Ha).
  unfold exec in Hc, Ha. rewrite E in Hc, Ha. cbn [snd] in Hc, Ha.
  apply append_start_awaiting in E as (-> & He & Hl & Hr & Hi & _).
  repeat split; assumption.
Qed.

Lemma append_opens_request_witness :
  let opts := default_options in
  let failed := exec (send opts (Content "a") [] (Rejected (AxiosError "down")))
                     (mount opts unary 0%Z) in
  let w1 := exec (append_start opts (Content "b")) failed in
  error failed = Some (AxiosError "down")
  /\ isLoading w1 = true /\ error w1 = None
  /\ abortControllerRef w1 = Some 1.
Proof.
  cbv zeta. split; [reflexivity|].
  destruct (append_opens_request default_options (Content "b")
              (exec (send default_options (Content "a") []
                          (Rejected (AxiosError "down")))
                    (mount default_options unary 0%Z))
              (exec (append_start default_options (Content "b"))
                    (exec (send default_options (Content "a") []
                                (Rejected (AxiosError "down")))
                          (mount default_options unary 0%Z)))
              (mkRequest "iiii"
                 (mkMessage "iiii" assistant [text_part EmptyString] (Some 0%Z))
                 1)
              eq_refl) as (Hl & He & Hr & _).
  repeat split; assumption.
Defined.



Lemma append_of_render_awaiting (opts : UseChatOptions)
      (history : list ChatMessage) (message : AppendArg) (w w1 : World)
      (req : Request) :
  append_of_render opts history message w = (Awaiting req, w1) ->
  abortController req = controllers w
  /\ exists payload,
       requestBody opts history (user_message_of message w) = inr payload
       /\ effects w1
          = effects w ++ [AxiosPost (api opts) payload (config_headers opts)
                                    (controllers w)].
Proof.
  destruct w; destruct message as [m|s]; unfold append_of_render; run;
    match goal with
    | |- context [requestBody ?o ?h ?u] =>
        destruct (requestBody o h u) as [e|b] eqn:E
    end; cbn.
  1, 3: destruct (axios_isCancel e); cbn; [discriminate|];
        destruct (onError opts); discriminate.
  all: intros [= <- <-]; cbn; split; eauto.
Qed.

Lemma get_set_property {V : Type} (k k' : string) (v : V)
      (r : list (string * V)) :
  JS.get_property k' (JS.set_property k v r)
  = if String.eqb k k' then Some v else JS.get_property k' r.
Proof.
  induction r as [|[k0 v0] r IH]; cbn.
  - reflexivity.
  - destruct (String.eqb_spec k0 k) as [->|N]; cbn.
    + destruct (String.eqb k k'); reflexivity.
    + rewrite IH. destruct (String.eqb_spec k0 k') as [->|N'];
        [|reflexivity].
      destruct (String.eqb_spec k k') as [->|_]; [contradiction|reflexivity].
Qed.

Lemma get_property_app {V : Type} (k : string) (a b : list (string * V)) :
  JS.get_property k (a ++ b)
  = match JS.get_property k a with
    | Some v => Some v
    | None => JS.get_property k b
    end.
Proof.
  induction a as [|[k0 v0] a IH]; cbn; [reflexivity|].
  destruct (String.eqb k0 k); [reflexivity|exact IH].
Qed.

(** A property of [{ ...base, ...extra }] holds the last value [extra]
    assigns to it, else the one [base] has. *)
Lemma get_spread {V : Type} (k : string) (extra : list (string * V)) :
  forall base,
    JS.get_property k (JS.spread base extra)
    = match JS.last_property k extra with
      | Some v => Some v
      | None => JS.get_property k base
      end.
Proof.
  unfold JS.spread, JS.last_property.
  induction extra as [|[k0 v0] extra IH]; intros base; [reflexivity|].
  cbn [fold_left rev fst snd]. rewrite IH, get_property_app, get_set_property.
  destruct (JS.get_property k (rev extra)); [reflexivity|].
  cbn. destruct (String.eqb k0 k); reflexivity.
Qed.

Lemma last_property_map {V W : Type} (f : V -> W) (k : string)
      (r : list (string * V)) :
  JS.last_property k (map (fun kv => (fst kv, f (snd kv))) r)
  = option_map f (JS.last_property k r).
Proof.
  unfold JS.last_property. rewrite <- map_rev.
  induction (rev r) as [|[k0 v0] l IH]; cbn; [reflexivity|].
  destruct (String.eqb k0 k); [reflexivity|exact IH].
Qed.

(** X3.  The request [append] posts goes to the configured endpoint.  Its
    headers are [Content-Type: application/json] with the caller's headers
    spread over it: a caller's [Content-Type] replaces the default one.
    Its payload is what the body function makes of the user message, or by
    default an object with [messages] (the list the render that built this
    [append] saw, followed by the user message: not the list now in the
    store, and never the placeholder) and [chatInput] (the text of the
    user message's first part), with the static body's fields spread over
    them: a static field named [messages] or [chatInput] replaces the
    default one. *)
Theorem append_posts_history_and_input (opts : UseChatOptions)
        (history : list ChatMessage) (message : AppendArg) (w w1 : World)
        (req : Request) :
  append_of_render opts history message w = (Awaiting req, w1) ->
  let userMessage := user_message_of message w in
  let payload := posted_body opts history userMessage in
  effects w1
  = effects w
    ++ [AxiosPost (api opts) payload (config_headers opts)
                  (abortController req)]
  /\ (forall k,
        JS.get_property k (config_headers opts)
        = match JS.last_property k (headers opts) with
          | Some v => Some v
          | None => if String.eqb "Content-Type" k
                    then Some "application/json" else None
          end)
  /\ match body opts with
     | Some (BodyFunction f) => payload = ProducedBody (f userMessage)
     | other =>
         forall k,
           JS.get_property k (body_fields payload)
           = match JS.last_property k match other with
                                      | Some (BodyRecord r) => r
                                      | _ => []
                                      end with
             | Some v => Some (JsonValue v)
             | None =>
                 if String.eqb "messages" k
                 then Some (MessagesValue (history ++ [userMessage]))
                 else if String.eqb "chatInput" k
                      then Some (InputValue match parts userMessage with
                                            | p :: _ => text p
                                            | [] => None
                                            end)
                      else None
             end
     end.
Proof.
  intros E. cbv zeta.
  apply append_of_render_awaiting in E as (-> & p & Hp & ->).
  rewrite (requestBody_posted _ _ _ _ Hp).
  split; [reflexivity|]. split.
  - intros k. unfold config_headers. rewrite get_spread. reflexivity.
  - unfold posted_body. destruct (body opts) as [[r|f]|];
      [|reflexivity|]; intros k; unfold body_fields;
      rewrite get_spread, last_property_map;
      destruct (JS.last_property k _); reflexivity.
Qed.

Lemma append_posts_history_and_input_witness :
  let opts := mkOptions "/hook" [] false false false
                        [("Content-Type", "text/plain"); ("X-Key", "k")]
                        (Some (BodyRecord [("chatInput", JString "fixed")])) in
  let w1 := exec (append_of_render opts [] (Content "a"))
                 (mount opts unary 0%Z) in
  let w2 := exec (append_of_render opts [] (Content "b")) w1 in
  let payload :=
    DefaultBody [mkMessage "iii" user [text_part "b"] (Some 0%Z)] (Some "b")
                [("chatInput", JString "fixed")] in
  effects w2
  = effects w1
    ++ [AxiosPost "/hook" payload
                  [("Content-Type", "text/plain"); ("X-Key", "k")] 1]
  /\ JS.get_property "chatInput" (body_fields payload)
     = Some (JsonValue (JString "fixed")).
Proof.
  cbv zeta.
  destruct (append_posts_history_and_input
              (mkOptions "/hook" [] false false false
                 [("Content-Type", "text/plain"); ("X-Key", "k")]
                 (Some (BodyRecord [("chatInput", JString "fixed")])))
              [] (Content "b")
              (exec (append_of_render
                       (mkOptions "/hook" [] false false false
                          [("Content-Type", "text/plain"); ("X-Key", "k")]
                          (Some (BodyRecord [("chatInput", JString "fixed")])))
                       [] (Content "a"))
                    (mount (mkOptions "/hook" [] false false false
                              [("Content-Type", "text/plain"); ("X-Key", "k")]
                              (Some (BodyRecord
                                       [("chatInput", JString "fixed")])))
                           unary 0%Z))
              (exec (append_of_render
                       (mkOptions "/hook" [] false false false
                          [("Content-Type", "text/plain"); ("X-Key", "k")]
                          (Some (BodyRecord [("chatInput", JString "fixed")])))
                       [] (Content "b"))
                    (exec (append_of_render
                             (mkOptions "/hook" [] false false false
                                [("Content-Type", "text/plain");
                                 ("X-Key", "k")]
                                (Some (BodyRecord
                                         [("chatInput", JString "fixed")])))
                             [] (Content "a"))
                          (mount (mkOptions "/hook" [] false false false
                                    [("Content-Type", "text/plain");
                                     ("X-Key", "k")]
                                    (Some (BodyRecord
                                             [("chatInput", JString "fixed")])))
                                 unary 0%Z)))
              (mkRequest "iiii"
                 (mkMessage "iiii" assistant [text_part EmptyString] (Some 0%Z))
                 1)
              eq_refl) as (H & _ & Hb).
  split; [exact H|]. exact (Hb "chatInput").
Defined.

(** *** Whole sends *)

Lemma resume_calls (opts : UseChatOptions) (req : Request)
      (outcome : Settlement) (w : World) :
  let w' := exec (append_resume opts req outcome) w in
  effects w' = effects w ++ settle_calls opts req outcome
  /\ (error w = None -> error w' = settle_error outcome).
Proof.
  destruct w; destruct outcome as [|err]; run.
  - destruct (onFinish opts); cbn; rewrite ?app_nil_r; split; auto.
  - destruct (axios_isCancel err); cbn; [split; auto|].
    destruct (onError opts); cbn; rewrite <- ?app_assoc; split; auto.
Qed.

(** X4.  Over a whole send the hook calls out in this order and no
    other: the post; [onResponse] once per payload delivered, in delivery
    order (when configured); then, by how the request ended, [onFinish]
    once, or the cancellation's console line, or the error's console line
    followed by [onError].  It ends with [isLoading] false, the handle
    cleared, and [error] set only by a failure that is not a
    cancellation. *)
Theorem send_calls_out_in_order (opts : UseChatOptions) (message : AppendArg)
        (steps : list Step) (outcome : Settlement) (w w1 : World)
        (req : Request) :
  append_start opts message w = (Awaiting req, w1) ->
  let w3 := exec (send opts message steps outcome) w in
  effects w3
  = effects w
    ++ [AxiosPost (api opts)
                  (posted_body opts (messages w) (user_message_of message w))
                  (config_headers opts) (abortController req)]
    ++ responses opts steps
    ++ settle_calls opts req outcome
  /\ error w3 = settle_error outcome
  /\ isLoading w3 = false
  /\ abortControllerRef w3 = None.
Proof.
  intros E. cbv zeta. rewrite (send_awaiting _ _ _ _ _ _ _ E).
  destruct (resume_calls opts req outcome (exec (drive opts req steps) w1))
    as (Hf & He).
  destruct (drive_frame opts req steps w1) as (_ & He' & _ & Hf').
  destruct (resume_frame opts req outcome (exec (drive opts req steps) w1))
    as (_ & _ & Hl & Hr).
  apply append_start_awaiting in E
    as (Hreq & He1 & _ & _ & _ & payload & Hp & Hf1).
  apply requestBody_posted in Hp. subst payload.
  rewrite Hf, Hf', Hf1, Hreq. cbn [abortController].
  rewrite <- Hreq, <- !app_assoc.
  repeat split; try assumption. apply He. congruence.
Qed.

Lemma send_calls_out_in_order_witness :
  let opts := mkOptions "/api/chat" [] true true true [] None in
  let w := mount opts unary 0%Z in
  let steps := [Progress (tick "He"); Progress (mkProgress None);
                Progress (tick "Hello")] in
  let err := AxiosError "Network Error" in
  skipn 1 (effects (exec (send opts (Content "hi") steps (Rejected err)) w))
  = [OnResponse "He"; OnResponse "Hello";
     ConsoleError "Error in useChat:" err; OnError err].
Proof.
  cbv zeta.
  rewrite (proj1 (send_calls_out_in_order
                    (mkOptions "/api/chat" [] true true true [] None)
                    (Content "hi")
                    [Progress (tick "He"); Progress (mkProgress None);
                     Progress (tick "Hello")]
                    (Rejected (AxiosError "Network Error"))
                    (mount (mkOptions "/api/chat" [] true true true [] None)
                           unary 0%Z)
                    (exec (append_start
                             (mkOptions "/api/chat" [] true true true [] None)
                             (Content "hi"))
                          (mount (mkOptions "/api/chat" [] true true true []
                                            None) unary 0%Z))
                    (mkRequest "ii"
                       (mkMessage "ii" assistant [text_part EmptyString]
                                  (Some 0%Z)) 0)
                    eq_refl)).
  reflexivity.
Defined.

Lemma replace_parts_keeps (a t : string) (l : list ChatMessage) :
  map id (map (replace_parts a t) l) = map id l
  /\ map role (map (replace_parts a t) l) = map role l
  /\ map createdAt (map (replace_parts a t) l) = map createdAt l.
Proof.
  rewrite !map_map.
  repeat split; apply map_ext; intros m; unfold replace_parts;
    destruct (String.eqb (id m) a); reflexivity.
Qed.

Lemma send_messages_shape (opts : UseChatOptions) (message : AppendArg)
      (steps : list Step) (outcome : Settlement) (w : World) :
  let turn := messages w
              ++ [user_message_of message w; placeholder message w] in
  messages (exec (send opts message steps outcome) w) = turn
  \/ exists a t,
       messages (exec (send opts message steps outcome) w)
       = map (replace_parts a t) turn.
Proof.
  cbv zeta.
  pose proof (append_start_messages opts message w) as Hm. unfold exec in Hm.
  destruct (append_start opts message w) as [[|req] w1] eqn:E;
    cbn [snd] in Hm.
  - left. now rewrite (send_settled _ _ _ _ _ _ E).
  - rewrite (send_awaiting _ _ _ _ _ _ _ E).
    rewrite (proj1 (resume_frame _ _ _ _)), drive_messages, Hm.
    destruct (last_payload steps) as [t|]; [right|left; reflexivity].
    now exists (assistantMessageId req), t.
Qed.

(** X5.  Whatever is delivered and however the request ends, a send only
    adds: afterwards [messages] holds the ids, roles and creation times it
    held before, in the same order, followed by those of the user message
    and of the placeholder.  No message is dropped, moved, re-identified
    or re-dated; no uniqueness of ids is needed for this. *)
Theorem send_keeps_ids_and_order (opts : UseChatOptions) (message : AppendArg)
        (steps : list Step) (outcome : Settlement) (w : World) :
  let w3 := exec (send opts message steps outcome) w in
  let userMessage := user_message_of message w in
  map id (messages w3)
  = map id (messages w) ++ [id userMessage; placeholder_id message w]
  /\ map role (messages w3)
     = map role (messages w) ++ [role userMessage; assistant]
  /\ map createdAt (messages w3)
     = map createdAt (messages w)
       ++ [createdAt userMessage; Some (clock w)]
  /\ List.length (messages w3) = List.length (messages w) + 2.
Proof.
  cbv zeta.
  assert (forall l : list ChatMessage,
             l = messages w
                 ++ [user_message_of message w; placeholder message w] ->
             map id l
             = map id (messages w)
               ++ [id (user_message_of message w); placeholder_id message w]
             /\ map role l
                = map role (messages w)
                  ++ [role (user_message_of message w); assistant]
             /\ map createdAt l
                = map createdAt (messages w)
                  ++ [createdAt (user_message_of message w); Some (clock w)])
    as T by (intros l ->; rewrite !map_app; repeat split; reflexivity).
  destruct (T _ eq_refl) as (Ti & Tr & Tc).
  assert (map id (messages (exec (send opts message steps outcome) w))
          = map id (messages w)
            ++ [id (user_message_of message w); placeholder_id message w]
          /\ map role (messages (exec (send opts message steps outcome) w))
             = map role (messages w)
               ++ [role (user_message_of message w); assistant]
          /\ map createdAt
               (messages (exec (send opts message steps outcome) w))
             = map createdAt (messages w)
               ++ [createdAt (user_message_of message w); Some (clock w)])
    as (Hi & Hr & Hc).
  { destruct (send_messages_shape opts message steps outcome w)
      as [->|(a & t & ->)]; [now apply T|].
    destruct (replace_parts_keeps a t
                (messages w
                 ++ [user_message_of message w; placeholder message w]))
      as (-> & -> & ->).
    repeat split; assumption. }
  repeat split; try assumption.
  apply (f_equal (@List.length _)) in Hi.
  rewrite length_app, !length_map in Hi. exact Hi.
Qed.

(** *** The updater, [stop] and [clearMessages] *)

Lemma progress_controllers (opts : UseChatOptions) (req : Request)
      (progressEvent : AxiosProgressEvent) (w : World) :
  let w' := exec (onDownloadProgress opts req progressEvent) w in
  controllers w' = controllers w /\ aborted w' = aborted w.
Proof.
  unfold onDownloadProgress.
  destruct (event_target progressEvent); [|split; reflexivity].
  destruct w; destruct (onResponse opts); run; split; reflexivity.
Qed.

(** X6.  A progress notification writes only the text of the messages
    carrying the placeholder's id: each of them becomes the same message
    with a single part of type text holding the payload, every other
    message is left exactly as it is, in its place, and the draft,
    [isLoading], [error], the handle and the aborted controllers are as
    before.  The payload is [responseText], or [response] when that is
    empty, and goes to [onResponse] first.  A notification without a
    transport object changes nothing at all and does not reach
    [onResponse]. *)
Theorem progress_writes_only_text (opts : UseChatOptions) (req : Request)
        (progressEvent : AxiosProgressEvent) (w : World) :
  let w' := exec (onDownloadProgress opts req progressEvent) w in
  input w' = input w
  /\ isLoading w' = isLoading w
  /\ error w' = error w
  /\ abortControllerRef w' = abortControllerRef w
  /\ aborted w' = aborted w
  /\ map id (messages w') = map id (messages w)
  /\ map role (messages w') = map role (messages w)
  /\ map createdAt (messages w') = map createdAt (messages w)
  /\ match event_target progressEvent with
     | Some xhr =>
         let payload := match responseText xhr with
                        | EmptyString => response xhr
                        | String _ _ => responseText xhr
                        end in
         messages w'
         = map (fun m =>
                  if String.eqb (id m) (assistantMessageId req)
                  then mkMessage (id m) (role m)
                                 [mkPart Text (Some payload) None None]
                                 (createdAt m)
                  else m)
               (messages w)
         /\ effects w' = effects w
                         ++ (if onResponse opts then [OnResponse payload]
                             else [])
     | None => w' = w
     end.
Proof.
  cbv zeta.
  destruct (progress_frame opts req progressEvent w) as (Hi & He & Hl & Hr & _).
  destruct (progress_controllers opts req progressEvent w) as (_ & Ha).
  pose proof (progress_messages opts req progressEvent w) as Hm.
  pose proof (progress_effects opts req progressEvent w) as Hf.
  unfold responses in Hf. cbn [payloads] in Hf.
  assert (map id (messages (exec (onDownloadProgress opts req progressEvent) w))
          = map id (messages w)
          /\ map role
               (messages (exec (onDownloadProgress opts req progressEvent) w))
             = map role (messages w)
          /\ map createdAt
               (messages (exec (onDownloadProgress opts req progressEvent) w))
             = map createdAt (messages w)) as (Ki & Kr & Kc).
  { rewrite Hm. destruct (event_target progressEvent) as [xhr|];
      [apply replace_parts_keeps|repeat split]. }
  repeat split; try assumption.
  destruct (event_target progressEvent) as [xhr|] eqn:Et.
  - rewrite <- raw_payload_cases. split.
    + rewrite Hm. reflexivity.
    + rewrite Hf. now destruct (onResponse opts).
  - unfold onDownloadProgress. now rewrite Et.
Qed.

(** X7.  With a request in flight, [stop] aborts exactly the controller in
    the handle, clears the handle and sets [isLoading] to false; it touches
    neither the messages, the draft, the error nor any callback, and a
    second [stop] right after it does nothing. *)
Theorem stop_aborts_active_request (w : World) (c : AbortController) :
  abortControllerRef w = Some c ->
  let w' := exec stop w in
  aborted w' = c :: aborted w
  /\ abortControllerRef w' = None
  /\ isLoading w' = false
  /\ messages w' = messages w
  /\ input w' = input w
  /\ error w' = error w
  /\ effects w' = effects w
  /\ stop w' = (tt, w').
Proof.
  intros H. destruct w. cbn in H. subst. repeat split.
Qed.

Lemma stop_aborts_active_request_witness :
  let opts := default_options in
  let w1 := exec (append_start opts (Content "hi")) (mount opts unary 0%Z) in
  aborted (exec stop w1) = [0] /\ isLoading (exec stop w1) = false.
Proof.
  cbv zeta.
  destruct (stop_aborts_active_request
              (exec (append_start default_options (Content "hi"))
                    (mount default_options unary 0%Z)) 0 eq_refl)
    as (Ha & _ & Hl & _).
  split; assumption.
Defined.

(** X8.  [clearMessages] empties the messages, the draft and the error and
    then stops: a request in flight is aborted, the handle cleared and
    [isLoading] set to false.  With no request in flight [isLoading] is
    left as it is. *)
Theorem clearMessages_resets (w : World) :
  let w' := exec clearMessages w in
  messages w' = []
  /\ input w' = EmptyString
  /\ error w' = None
  /\ abortControllerRef w' = None
  /\ effects w' = effects w
  /\ match abortControllerRef w with
     | Some c => isLoading w' = false /\ aborted w' = c :: aborted w
     | None => isLoading w' = isLoading w /\ aborted w' = aborted w
     end.
Proof.
  destruct w as [? ? ? ? [c|] ? ? ? ? ? ?]; repeat split.
Qed.

Lemma drive_on_empty (opts : UseChatOptions) (req : Request)
      (steps : list Step) (w : World) :
  messages w = [] -> messages (exec (drive opts req steps) w) = [].
Proof.
  intros H. rewrite drive_messages, H.
  now destruct (last_payload steps).
Qed.

(** X9.  Once [clearMessages] has run, nothing a request started earlier
    still does brings a message back: whatever its remaining progress
    notifications carry and however it settles, [messages] stays empty. *)
Theorem cleared_list_stays_empty (opts : UseChatOptions) (req : Request)
        (steps : list Step) (outcome : Settlement) (w : World) :
  messages (exec (append_resume opts req outcome)
                 (exec (drive opts req steps) (exec clearMessages w)))
  = [].
Proof.
  rewrite (proj1 (resume_frame _ _ _ _)).
  apply drive_on_empty. now destruct w as [? ? ? ? [c|] ? ? ? ? ? ?].
Qed.

(** *** Overlapping sends *)

Lemma stop_idle_is_noop_frame (w : World) :
  abortControllerRef w = None -> stop w = (tt, w).
Proof.
  intros H. unfold stop, bind, gets. now rewrite H.
Qed.

Lemma ticks_frame (opts : UseChatOptions) (req : Request)
      (ticks : list AxiosProgressEvent) :
  forall w : World,
    let w' := exec (drive opts req (map Progress ticks)) w in
    isLoading w' = isLoading w
    /\ abortControllerRef w' = abortControllerRef w
    /\ aborted w' = aborted w.
Proof.
  induction ticks as [|progressEvent ticks IH]; intros w;
    [repeat split|].
  cbn zeta. cbn [map drive step]. rewrite exec_seq.
  destruct (IH (exec (onDownloadProgress opts req progressEvent) w))
    as (-> & -> & ->).
  destruct (progress_frame opts req progressEvent w) as (_ & _ & Hl & Hr & _).
  destruct (progress_controllers opts req progressEvent w) as (_ & Ha).
  repeat split; assumption.
Qed.

Lemma resume_aborted (opts : UseChatOptions) (req : Request)
      (outcome : Settlement) (w : World) :
  aborted (exec (append_resume opts req outcome) w) = aborted w.
Proof.
  destruct w; destruct outcome as [|err]; run.
  - now destruct (onFinish opts).
  - destruct (axios_isCancel err); cbn; [reflexivity|].
    now destruct (onError opts).
Qed.

(** X10.  [append] does not wait for or cancel a request already in
    flight.  A second call gets its own controller and takes over the one
    handle, so [stop] would then abort the second request only.  When the
    first request settles, its [finally] sets [isLoading] to false and
    clears the handle although the second is still in flight: from then on
    [stop] does nothing, and the second request has not been aborted. *)
Theorem overlapping_sends_share_one_handle (opts : UseChatOptions)
        (first second : AppendArg) (ticks : list AxiosProgressEvent)
        (outcome : Settlement) (w w1 w2 : World) (r1 r2 : Request) :
  append_start opts first w = (Awaiting r1, w1) ->
  append_start opts second w1 = (Awaiting r2, w2) ->
  let w3 := exec (append_resume opts r1 outcome)
                 (exec (drive opts r1 (map Progress ticks)) w2) in
  abortController r2 <> abortController r1
  /\ aborted w2 = aborted w
  /\ abortControllerRef w2 = Some (abortController r2)
  /\ aborted (exec stop w2) = abortController r2 :: aborted w
  /\ isLoading w2 = true
  /\ isLoading w3 = false
  /\ abortControllerRef w3 = None
  /\ aborted w3 = aborted w
  /\ stop w3 = (tt, w3).
Proof.
  intros E1 E2. cbv zeta.
  destruct (append_start_controllers opts first w) as (Hc1 & Ha1).
  destruct (append_start_controllers opts second w1) as (Hc2 & Ha2).
  unfold exec in Hc1, Ha1, Hc2, Ha2.
  rewrite E1 in Hc1, Ha1. rewrite E2 in Hc2, Ha2.
  cbn [snd] in Hc1, Ha1, Hc2, Ha2.
  apply append_start_awaiting in E1 as (-> & _).
  apply append_start_awaiting in E2 as (-> & _ & Hl2 & Hr2 & _).
  cbn [abortController].
  destruct (ticks_frame opts
              (mkRequest (placeholder_id first w) (placeholder first w)
                         (controllers w)) ticks w2) as (_ & _ & Ha3).
  destruct (resume_frame opts
              (mkRequest (placeholder_id first w) (placeholder first w)
                         (controllers w)) outcome
              (exec (drive opts
                       (mkRequest (placeholder_id first w)
                                  (placeholder first w) (controllers w))
                       (map Progress ticks)) w2)) as (_ & _ & Hl3 & Hr3).
  split; [rewrite Hc1; apply Nat.neq_succ_diag_l|].
  split; [congruence|]. split; [exact Hr2|]. split.
  - destruct w2. cbn in Hr2, Ha2. subst. rewrite Ha1. reflexivity.
  - split; [exact Hl2|]. split; [exact Hl3|]. split; [exact Hr3|]. split.
    + rewrite resume_aborted. congruence.
    + apply stop_idle_is_noop_frame. exact Hr3.
Qed.

Lemma overlapping_sends_share_one_handle_witness :
  let opts := default_options in
  let w1 := exec (append_start opts (Content "a")) (mount opts unary 0%Z) in
  let w2 := exec (append_start opts (Content "b")) w1 in
  let r1 := mkRequest "ii" (mkMessage "ii" assistant [text_part EmptyString]
                                      (Some 0%Z)) 0 in
  let w3 := exec (append_resume opts r1 Fulfilled)
                 (exec (drive opts r1 (map Progress [tick "A"])) w2) in
  aborted (exec stop w2) = [1]
  /\ isLoading w2 = true /\ isLoading w3 = false
  /\ abortControllerRef w3 = None.
Proof.
  cbv zeta.
  destruct (overlapping_sends_share_one_handle
              default_options (Content "a") (Content "b") [tick "A"] Fulfilled
              (mount default_options unary 0%Z)
              (exec (append_start default_options (Content "a"))
                    (mount default_options unary 0%Z))
              (exec (append_start default_options (Content "b"))
                    (exec (append_start default_options (Content "a"))
                          (mount default_options unary 0%Z)))
              (mkRequest "ii" (mkMessage "ii" assistant [text_part EmptyString]
                                         (Some 0%Z)) 0)
              (mkRequest "iiii"
                 (mkMessage "iiii" assistant [text_part EmptyString]
                            (Some 0%Z)) 1)
              eq_refl eq_refl) as (_ & _ & _ & Hs & Hl2 & Hl3 & Hr3 & _).
  repeat split; assumption.
Defined.

(** *** [handleInputChange] and [handleSubmit] *)










End UseChatExtra.


(** * Further properties of Variant B *)

Module ChatExtra.

Import St Chat ChatSpec.
Local Open Scope list_scope.

(** *** [handleSubmit] *)

(** X13.  [handleSubmit] of the component draws three ids in a row: for
    the user message, for the placeholder and for the session.  It puts
    the user message, holding the prompt's text as it is, and then the
    empty assistant placeholder at the end of [messages], posts
    [chatInput] and [sessionId] to the webhook, and hands the
    placeholder's id to the progress callback.  Nothing checks the text:
    a blank prompt is sent like any other. *)
Theorem submit_adds_turn_and_posts (message : PromptInputMessage.t)
        (w : World) :
  let n := nanoid_calls w in
  let text := PromptInputMessage.text message in
  let w' := exec (handleSubmit_start message) w in
  eval (handleSubmit_start message) w = nanoid_source w (S n)
  /\ messages (state w')
     = messages (state w)
       ++ [mkMessage (nanoid_source w n) user [mkPart text];
           mkMessage (nanoid_source w (S n)) assistant [mkPart EmptyString]]
  /\ effects w'
     = effects w
       ++ [AxiosPost webhook
             [("chatInput", JString text);
              ("sessionId", JString (nanoid_source w (S (S n))))]]
  /\ nanoid_calls w' = S (S (S n))
  /\ nanoid_source w' = nanoid_source w.
Proof.
  destruct w as [[ms] src n fx]. repeat split.
Qed.

(** *** The progress callback *)

Lemma strict_equal_iff (v : option JSON) (s : string) :
  strict_equal v s = true <-> v = Some (JString s).
Proof.
  unfold strict_equal. destruct v as [[| | |x| |]|]; split;
    try discriminate.
  - intros H. apply String.eqb_eq in H. now subst.
  - intros [= ->]. apply String.eqb_refl.
Qed.

Lemma map_throwing_stops {A B : Type} (f : A -> JsError + B)
      (pre post : list A) (a : A) (e : JsError) :
  Forall (fun x => exists b, f x = inr b) pre ->
  f a = inl e ->
  map_throwing f (pre ++ a :: post) = inl e.
Proof.
  intros Hp Ha. induction Hp as [|x pre [b Hx] _ IH]; cbn.
  - now rewrite Ha.
  - now rewrite Hx, IH.
Qed.

(** X14.  When a non-empty line of the buffer is not JSON, the
    notification ends with the parser's failure for the first such line:
    the lines after it are not looked at, nothing is logged, and
    [messages] keeps the text written so far. *)
Theorem malformed_line_aborts_tick
        (JSON_parse : string -> JsError + JSON)
        (JSON_stringify : JSON -> string)
        (assistantMessageId : string) (progressEvent : AxiosProgressEvent)
        (xhr : XMLHttpRequest) (pre post : list string) (line : string)
        (e : JsError) (w : World) :
  event_target progressEvent = Some xhr ->
  lines (response xhr) = pre ++ line :: post ->
  Forall (fun l => exists v, JSON_parse l = inr v) pre ->
  JSON_parse line = inl e ->
  onDownloadProgress JSON_parse JSON_stringify assistantMessageId
                     progressEvent w
  = (Throw e, w).
Proof.
  intros Ht Hl Hp He. unfold onDownloadProgress, parse_buffer.
  now rewrite Ht, Hl, (map_throwing_stops _ _ _ _ _ Hp He).
Qed.

Lemma malformed_line_aborts_tick_witness :
  let w := exec (handleSubmit_start (PromptInputMessage.make "Hello"))
                (mount unary) in
  onDownloadProgress reference_parse Json.stringify "ii"
                     (tick sample_buffer_broken) w
  = (Throw (SyntaxError "JSON.parse"), w).
Proof.
  cbv zeta.
  apply (malformed_line_aborts_tick reference_parse Json.stringify "ii"
           (tick sample_buffer_broken)
           (mkXhr sample_buffer_broken sample_buffer_broken)
           [event_line "begin" EmptyString; event_line "item" "Hi"]
           [event_line "item" "!"] "{oops").
  - reflexivity.
  - vm_compute. reflexivity.
  - repeat constructor; eexists; vm_compute; reflexivity.
  - reflexivity.
Defined.

(** X15.  A notification whose last record is neither an item nor an
    error (a [begin] or [end] record, a value without [type], or no
    record at all because the buffer has no line yet) ends normally and
    changes no message; it only logs the parsed records and the raw
    buffer. *)
Theorem other_records_change_nothing
        (JSON_parse : string -> JsError + JSON)
        (JSON_stringify : JSON -> string)
        (assistantMessageId : string) (progressEvent : AxiosProgressEvent)
        (xhr : XMLHttpRequest) (parsed : list JSON) (w : World) :
  event_target progressEvent = Some xhr ->
  parse_buffer JSON_parse (response xhr) = inr parsed ->
  property (at_last parsed) "type" <> Some (JString "item") ->
  property (at_last parsed) "type" <> Some (JString "error") ->
  let handler :=
    onDownloadProgress JSON_parse JSON_stringify assistantMessageId
                       progressEvent in
  eval handler w = Normal
  /\ state (exec handler w) = state w
  /\ effects (exec handler w)
     = effects w ++ [ConsoleLogParsed parsed; ConsoleLogResponse (response xhr)].
Proof.
  intros Ht Hb Hi He. cbv zeta. unfold onDownloadProgress. rewrite Ht, Hb.
  destruct (strict_equal (property (at_last parsed) "type") "item") eqn:Ei;
    [now apply strict_equal_iff in Ei|].
  destruct (strict_equal (property (at_last parsed) "type") "error") eqn:Ee;
    [now apply strict_equal_iff in Ee|].
  destruct w as [[ms] src n fx]. run. rewrite <- app_assoc. repeat split.
Qed.

Lemma other_records_change_nothing_witness :
  let w := exec (handleSubmit_start (PromptInputMessage.make "Hello"))
                (mount unary) in
  let handler raw := onDownloadProgress reference_parse Json.stringify "ii"
                                        (tick raw) in
  state (exec (handler sample_buffer_opening) w) = state w
  /\ state (exec (handler EmptyString) w) = state w.
Proof.
  cbv zeta. split.
  - apply (other_records_change_nothing reference_parse Json.stringify "ii"
             (tick sample_buffer_opening)
             (mkXhr sample_buffer_opening sample_buffer_opening)
             [sample_record "begin" EmptyString]);
      [reflexivity|reflexivity|discriminate|discriminate].
  - apply (other_records_change_nothing reference_parse Json.stringify "ii"
             (tick EmptyString) (mkXhr EmptyString EmptyString) []);
      [reflexivity|reflexivity|discriminate|discriminate].
Defined.

(** *** Items *)

Lemma append_content_text (assistantMessageId : string)
      (lastResponse : option JSON) (l : list ChatMessage) :
  Forall (fun m => List.length (parts m) = 1) l ->
  map_throwing (append_content assistantMessageId lastResponse) l
  = inr (map (appended assistantMessageId (content_text lastResponse)) l).
Proof.
  induction 1 as [|m l Hm Hl IH]; [reflexivity|].
  cbn [map_throwing map]. rewrite IH.
  unfold append_content, appended, first_text, content_text, plus.
  destruct (String.eqb (id m) assistantMessageId); [|reflexivity].
  destruct (parts m) as [|p ps]; [discriminate|].
  now rewrite or_empty_id.
Qed.

(** What an item tick does, whatever the record's content is. *)
Lemma item_tick (JSON_parse : string -> JsError + JSON)
      (JSON_stringify : JSON -> string)
      (assistantMessageId : string) (progressEvent : AxiosProgressEvent)
      (xhr : XMLHttpRequest) (parsed : list JSON) (w : World) :
  single_parts w ->
  event_target progressEvent = Some xhr ->
  parse_buffer JSON_parse (response xhr) = inr parsed ->
  property (at_last parsed) "type" = Some (JString "item") ->
  let handler :=
    onDownloadProgress JSON_parse JSON_stringify assistantMessageId
                       progressEvent in
  eval handler w = Normal
  /\ messages (state (exec handler w))
     = map (appended assistantMessageId (content_text (at_last parsed)))
           (messages (state w)).
Proof.
  intros Hp Ht Hb Hty. cbv zeta.
  unfold onDownloadProgress. rewrite Ht, Hb, Hty.
  destruct w as [[ms] src n fx]. unfold single_parts in Hp. cbn in Hp. run.
  rewrite (append_content_text _ _ _ Hp). cbn. split; reflexivity.
Qed.

(** X16.  An item record that has no [content] does not leave the text
    alone: [text + undefined] is appended, so the placeholder grows by the
    nine letters of the word undefined. *)
Theorem item_without_content_appends_undefined
        (JSON_parse : string -> JsError + JSON)
        (JSON_stringify : JSON -> string)
        (assistantMessageId : string) (progressEvent : AxiosProgressEvent)
        (xhr : XMLHttpRequest) (record : JSON) (w : World) :
  single_parts w ->
  event_target progressEvent = Some xhr ->
  last_record JSON_parse (response xhr) = Some record ->
  property (Some record) "type" = Some (JString "item") ->
  property (Some record) "content" = None ->
  let handler :=
    onDownloadProgress JSON_parse JSON_stringify assistantMessageId
                       progressEvent in
  eval handler w = Normal
  /\ messages (state (exec handler w))
     = map (appended assistantMessageId "undefined") (messages (state w)).
Proof.
  intros Hp Ht Hr Hty Hc.
  apply last_record_parsed in Hr as (parsed & Hb & Hl).
  rewrite <- Hl in Hty.
  destruct (item_tick JSON_parse JSON_stringify assistantMessageId
              progressEvent xhr parsed w Hp Ht Hb Hty) as (He & Hm).
  split; [exact He|]. cbv zeta. rewrite Hm, Hl.
  unfold content_text. now rewrite Hc.
Qed.

Lemma item_without_content_appends_undefined_witness :
  let w := exec (handleSubmit_start (PromptInputMessage.make "Hello"))
                (mount unary) in
  map part_texts
      (messages (state (exec (onDownloadProgress reference_parse
                                Json.stringify "ii" (tick sample_buffer_bare))
                             w)))
  = [["Hello"]; ["undefined"]].
Proof.
  cbv zeta.
  destruct (item_without_content_appends_undefined
              reference_parse Json.stringify "ii" (tick sample_buffer_bare)
              (mkXhr sample_buffer_bare sample_buffer_bare)
              (JObject [("type", JString "item")])
              (exec (handleSubmit_start (PromptInputMessage.make "Hello"))
                    (mount unary))
              (handleSubmit_start_single_parts _ _ (mount_single_parts unary))
              eq_refl eq_refl eq_refl eq_refl) as (_ & H).
  apply (f_equal (map part_texts)) in H. exact H.
Defined.

(** X17.  Only the last record of a buffer counts.  Two buffers whose
    lines all parse and whose last records are equal leave the same
    messages and end the notification the same way, whatever their
    earlier lines are: when one tick brings several new items, the text
    of all but the last is lost. *)
Theorem only_last_record_counts
        (JSON_parse : string -> JsError + JSON)
        (JSON_stringify : JSON -> string)
        (assistantMessageId : string) (e1 e2 : AxiosProgressEvent)
        (xhr1 xhr2 : XMLHttpRequest) (parsed1 parsed2 : list JSON)
        (w : World) :
  event_target e1 = Some xhr1 ->
  event_target e2 = Some xhr2 ->
  parse_buffer JSON_parse (response xhr1) = inr parsed1 ->
  parse_buffer JSON_parse (response xhr2) = inr parsed2 ->
  at_last parsed1 = at_last parsed2 ->
  let handler := onDownloadProgress JSON_parse JSON_stringify
                                    assistantMessageId in
  eval (handler e1) w = eval (handler e2) w
  /\ state (exec (handler e1) w) = state (exec (handler e2) w).
Proof.
  intros H1 H2 B1 B2 L. cbv zeta. unfold onDownloadProgress.
  rewrite H1, H2, B1, B2, L.
  destruct w as [[ms] src n fx]. run.
  destruct (strict_equal (property (at_last parsed2) "type") "item").
  - cbn [messages state].
    destruct (map_throwing
                (append_content assistantMessageId (at_last parsed2)) ms)
      as [e|next]; cbn; [split; reflexivity|].
    destruct (strict_equal (property (at_last parsed2) "type") "error");
      split; reflexivity.
  - cbn.
    destruct (strict_equal (property (at_last parsed2) "type") "error");
      split; reflexivity.
Qed.

Lemma only_last_record_counts_witness :
  let w := exec (handleSubmit_start (PromptInputMessage.make "Hello"))
                (mount unary) in
  let handler raw := onDownloadProgress reference_parse Json.stringify "ii"
                                        (tick raw) in
  let w1 := exec (handler sample_buffer_1) w in
  state (exec (handler sample_buffer_burst) w1)
  = state (exec (handler (event_line "item" "re")) w1)
  /\ map part_texts (messages (state (exec (handler sample_buffer_burst) w1)))
     = [["Hello"]; ["Hire"]].
Proof.
  cbv zeta. split; [|vm_compute; reflexivity].
  apply (only_last_record_counts reference_parse Json.stringify "ii"
           (tick sample_buffer_burst) (tick (event_line "item" "re"))
           (mkXhr sample_buffer_burst sample_buffer_burst)
           (mkXhr (event_line "item" "re") (event_line "item" "re"))
           [sample_record "begin" EmptyString; sample_record "item" "Hi";
            sample_record "item" " the"; sample_record "item" "re"]
           [sample_record "item" "re"]);
    reflexivity.
Defined.

Lemma string_append_assoc (a b c : string) :
  ((a ++ b) ++ c)%string = (a ++ (b ++ c))%string.
Proof. induction a as [|x a IH]; cbn; [reflexivity|now rewrite IH]. Qed.

Lemma appended_twice (a c d : string) (m : ChatMessage) :
  appended a d (appended a c m) = appended a (c ++ d)%string m.
Proof.
  unfold appended. destruct (String.eqb (id m) a) eqn:E; cbn [id].
  - rewrite E. unfold first_text. cbn [parts text].
    now rewrite string_append_assoc.
  - now rewrite E.
Qed.

(** X18.  Unlike the overwrite of Variant A, an item notification is not
    idempotent: when the transport shows the same buffer again, the
    content of its last record is appended again. *)
Theorem replayed_buffer_appends_again
        (JSON_parse : string -> JsError + JSON)
        (JSON_stringify : JSON -> string)
        (assistantMessageId : string) (progressEvent : AxiosProgressEvent)
        (xhr : XMLHttpRequest) (record : JSON) (c : string) (w : World) :
  single_parts w ->
  event_target progressEvent = Some xhr ->
  last_record JSON_parse (response xhr) = Some record ->
  property (Some record) "type" = Some (JString "item") ->
  property (Some record) "content" = Some (JString c) ->
  let handler :=
    onDownloadProgress JSON_parse JSON_stringify assistantMessageId
                       progressEvent in
  messages (state (exec handler (exec handler w)))
  = map (appended assistantMessageId (c ++ c)%string) (messages (state w)).
Proof.
  intros Hp Ht Hr Hty Hc. cbv zeta.
  apply last_record_parsed in Hr as (parsed & Hb & Hl).
  rewrite <- Hl in Hty.
  pose proof (progress_single_parts JSON_parse JSON_stringify
                assistantMessageId progressEvent w Hp) as Hp'.
  rewrite (proj2 (item_tick _ _ _ _ _ _ _ Hp' Ht Hb Hty)).
  rewrite (proj2 (item_tick _ _ _ _ _ _ _ Hp Ht Hb Hty)).
  rewrite map_map. apply map_ext. intros m.
  rewrite appended_twice. unfold content_text. rewrite Hl, Hc. reflexivity.
Qed.

Lemma replayed_buffer_appends_again_witness :
  let w := exec (handleSubmit_start (PromptInputMessage.make "Hello"))
                (mount unary) in
  let handler := onDownloadProgress reference_parse Json.stringify "ii"
                                    (tick sample_buffer_1) in
  map part_texts (messages (state (exec handler (exec handler w))))
  = [["Hello"]; ["HiHi"]].
Proof.
  cbv zeta.
  pose proof (replayed_buffer_appends_again
                reference_parse Json.stringify "ii" (tick sample_buffer_1)
                (mkXhr sample_buffer_1 sample_buffer_1)
                (sample_record "item" "Hi") "Hi"
                (exec (handleSubmit_start (PromptInputMessage.make "Hello"))
                      (mount unary))
                (handleSubmit_start_single_parts _ _
                   (mount_single_parts unary))
                eq_refl eq_refl eq_refl eq_refl) as H.
  apply (f_equal (map part_texts)) in H. exact H.
Defined.

(** *** What every history keeps *)

Lemma tick_never_TypeError (JSON_parse : string -> JsError + JSON)
      (JSON_stringify : JSON -> string)
      (assistantMessageId : string) (progressEvent : AxiosProgressEvent)
      (w : World) :
  (forall line m, JSON_parse line <> inl (TypeError m)) ->
  single_parts w ->
  is_TypeError (eval (onDownloadProgress JSON_parse JSON_stringify
                                         assistantMessageId progressEvent) w)
  = false.
Proof.
  intros HP Hp. unfold onDownloadProgress, parse_buffer.
  destruct (event_target progressEvent) as [xhr|]; [|reflexivity].
  destruct (map_throwing JSON_parse (lines (response xhr)))
    as [e|parsed] eqn:Eb.
  - cbn. destruct e as [m|m|m|m|m]; try reflexivity. exfalso.
    revert Eb. generalize (lines (response xhr)) as l.
    induction l as [|line l IH]; cbn [map_throwing]; [discriminate|].
    destruct (JSON_parse line) as [e|v] eqn:E.
    + intros [= ->]. now apply (HP line m).
    + destruct (map_throwing JSON_parse l); [|discriminate].
      intros [= ->]. now apply IH.
  - destruct w as [[ms] src n fx]. unfold single_parts in Hp. cbn in Hp. run.
    destruct (strict_equal (property (at_last parsed) "type") "item").
    + cbn [messages state]. rewrite (append_content_text _ _ _ Hp). cbn.
      now destruct (strict_equal (property (at_last parsed) "type") "error").
    + cbn.
      now destruct (strict_equal (property (at_last parsed) "type") "error").
Qed.

Lemma history_invariant (JSON_parse : string -> JsError + JSON)
      (JSON_stringify : JSON -> string) (events : list Event) :
  (forall line m, JSON_parse line <> inl (TypeError m)) ->
  forall w : World,
    single_parts w ->
    single_parts (exec (history JSON_parse JSON_stringify events) w)
    /\ existsb is_TypeError
              (eval (history JSON_parse JSON_stringify events) w)
       = false.
Proof.
  intros HP. induction events as [|e events IH]; intros w Hp;
    [split; [exact Hp|reflexivity]|].
  cbn [history]. unfold exec, eval, bind, ret.
  destruct (react JSON_parse JSON_stringify e w) as [c w1] eqn:E.
  assert (single_parts w1 /\ is_TypeError c = false) as (Hp1 & Hc).
  { destruct e as [message|a progressEvent|outcome]; cbn [react] in E.
    - pose proof (handleSubmit_start_single_parts message w Hp) as H.
      unfold exec in H. unfold bind, ret in E.
      destruct (handleSubmit_start message w) as [i w']. cbn in H.
      now injection E as <- <-.
    - pose proof (progress_single_parts JSON_parse JSON_stringify a
                    progressEvent w Hp) as H.
      pose proof (tick_never_TypeError JSON_parse JSON_stringify a
                    progressEvent w HP Hp) as H'.
      unfold exec in H. unfold eval in H'. rewrite E in H, H'. now split.
    - pose proof (handleSubmit_resume_state outcome w) as H.
      unfold exec in H. unfold bind, ret in E.
      destruct (handleSubmit_resume outcome w) as [[] w']. cbn in H.
      injection E as <- <-. split; [|reflexivity].
      unfold single_parts in *. now rewrite H. }
  destruct (IH w1 Hp1) as (H1 & H2). unfold exec, eval in H1, H2.
  destruct (history JSON_parse JSON_stringify events w1) as [cs w2].
  cbn in *. now rewrite Hc.
Qed.

(** X19.  Through any history of submits, progress notifications (for any
    placeholder id) and settlements after mounting, every stored message
    has exactly one part, and no notification ever fails on reading
    [parts[0].text]: the failures of a notification are the parser's and
    the error records'.  (The parser is assumed to fail with its own
    error, never a [TypeError].) *)
Theorem component_keeps_one_part_per_message
        (JSON_parse : string -> JsError + JSON)
        (JSON_stringify : JSON -> string)
        (ids : nat -> string) (events : list Event) :
  (forall line m, JSON_parse line <> inl (TypeError m)) ->
  single_parts (exec (history JSON_parse JSON_stringify events) (mount ids))
  /\ existsb is_TypeError
            (eval (history JSON_parse JSON_stringify events) (mount ids))
     = false.
Proof.
  intros HP. apply history_invariant; [exact HP|apply mount_single_parts].
Qed.

Lemma reference_parse_no_TypeError (line m : string) :
  reference_parse line <> inl (TypeError m).
Proof.
  unfold reference_parse. destruct (Json.parse line); discriminate.
Qed.

Lemma component_keeps_one_part_per_message_witness :
  let events := [Submit (PromptInputMessage.make "Hello");
                 Tick "ii" (tick sample_buffer_1);
                 Tick "ii" (tick sample_buffer_broken);
                 Tick "ii" (tick sample_buffer_3);
                 Settle Fulfilled] in
  single_parts (exec (history reference_parse Json.stringify events)
                     (mount unary)).
Proof.
  cbv zeta.
  apply (component_keeps_one_part_per_message reference_parse Json.stringify
           unary
           [Submit (PromptInputMessage.make "Hello");
            Tick "ii" (tick sample_buffer_1);
            Tick "ii" (tick sample_buffer_broken);
            Tick "ii" (tick sample_buffer_3);
            Settle Fulfilled]
           reference_parse_no_TypeError).
Defined.

Lemma append_content_keeps (assistantMessageId : string)
      (lastResponse : option JSON) (l : list ChatMessage) :
  forall next,
    map_throwing (append_content assistantMessageId lastResponse) l = inr next ->
    map id next = map id l /\ map role next = map role l.
Proof.
  induction l as [|m l IH]; intros next; cbn [map_throwing].
  - intros [= <-]. split; reflexivity.
  - unfold append_content at 1.
    destruct (String.eqb (id m) assistantMessageId).
    + destruct (parts m) as [|p ps]; [discriminate|].
      destruct (map_throwing _ l) as [e|bs]; [discriminate|].
      intros [= <-]. destruct (IH bs eq_refl) as (Hi & Hr).
      cbn. now rewrite Hi, Hr.
    + destruct (map_throwing _ l) as [e|bs]; [discriminate|].
      intros [= <-]. destruct (IH bs eq_refl) as (Hi & Hr).
      cbn. now rewrite Hi, Hr.
Qed.

(** X20.  A progress notification never adds, drops or moves a message and
    never changes an id or a role, however it ends; neither does the
    settling of a request.  Only the text of the placeholder can differ. *)
Theorem tick_keeps_ids_and_roles
        (JSON_parse : string -> JsError + JSON)
        (JSON_stringify : JSON -> string)
        (assistantMessageId : string) (progressEvent : AxiosProgressEvent)
        (outcome : Settlement) (w : World) :
  let w' := exec (onDownloadProgress JSON_parse JSON_stringify
                                     assistantMessageId progressEvent) w in
  map id (messages (state w')) = map id (messages (state w))
  /\ map role (messages (state w')) = map role (messages (state w))
  /\ List.length (messages (state w')) = List.length (messages (state w))
  /\ state (exec (handleSubmit_resume outcome) w) = state w.
Proof.
  cbv zeta.
  assert (map id (messages (state (exec (onDownloadProgress JSON_parse
                     JSON_stringify assistantMessageId progressEvent) w)))
          = map id (messages (state w))
          /\ map role (messages (state (exec (onDownloadProgress JSON_parse
                        JSON_stringify assistantMessageId progressEvent) w)))
             = map role (messages (state w))) as (Hi & Hr).
  { unfold onDownloadProgress.
    destruct (event_target progressEvent) as [xhr|]; [|split; reflexivity].
    destruct (parse_buffer JSON_parse (response xhr)) as [e|parsed];
      [split; reflexivity|].
    destruct w as [[ms] src n fx]. run.
    destruct (strict_equal (property (at_last parsed) "type") "item").
    - cbn [messages state].
      destruct (map_throwing
                  (append_content assistantMessageId (at_last parsed)) ms)
        as [e|next] eqn:En; cbn; [split; reflexivity|].
      destruct (strict_equal (property (at_last parsed) "type") "error");
        cbn; exact (append_content_keeps _ _ _ _ En).
    - cbn.
      destruct (strict_equal (property (at_last parsed) "type") "error");
        split; reflexivity. }
  split; [exact Hi|]. split; [exact Hr|]. split.
  - apply (f_equal (@List.length _)) in Hi. now rewrite !length_map in Hi.
  - apply handleSubmit_resume_state.
Qed.

(** *** Lines *)

Lemma split_app (sep : ascii) (a b : string) :
  JS.split sep (a ++ String sep b)%string = JS.split sep a ++ JS.split sep b.
Proof.
  induction a as [|c a IH]; cbn [append JS.split].
  - now rewrite Ascii.eqb_refl.
  - destruct (Ascii.eqb c sep); rewrite IH; [reflexivity|].
    pose proof (split_nonempty sep a) as NE.
    destruct (JS.split sep a) as [|p ps]; [contradiction|reflexivity].
Qed.

(** X21.  The lines read from a buffer are never empty and never hold a
    newline, and blank lines make no difference: the lines of two buffers
    joined by a newline are the lines of the first followed by the lines
    of the second, so a buffer that grows by whole lines keeps the lines it
    had, in place. *)
Theorem lines_of_joined_buffers (a b : string) :
  lines (a ++ newline ++ b)%string = lines a ++ lines b
  /\ lines (a ++ newline)%string = lines a
  /\ Forall (fun line => line <> EmptyString
                         /\ ~ In "010"%char (list_ascii_of_string line))
            (lines a).
Proof.
  unfold lines, newline. cbn [append].
  rewrite !split_app, !filter_app. cbn. rewrite app_nil_r.
  repeat split. apply Forall_forall. intros line H.
  apply filter_In in H as [Hs Ht]. split; [now destruct line|].
  pose proof (split_pieces "010"%char a) as P.
  rewrite Forall_forall in P. now apply P.
Qed.

End ChatExtra.
